(** * PHP jobs scraper: the fetch, extract and deduplicate pipeline of script.py

    A shallow embedding of [fetch_page], [find_php_links_on_html],
    [scrape_site] and [JobsApp.scrape_and_display], and the properties of the
    pipeline proved over it.

    Python [str] values are modelled by [string]; a character is a code point
    below 256, so [lower], [strip] and [splitlines] follow Python on the
    Latin-1 range.  The libraries the script calls (BeautifulSoup, urllib,
    html, requests) are collaborators: the pipeline is defined over them as
    section variables, and small executable models of them are given
    afterwards for the concrete examples. *)

From Stdlib Require Import Ascii NArith.
From stdpp Require Import gmap strings list pretty.

Open Scope string_scope.
Open Scope list_scope.
Open Scope nat_scope.

(** ** Exceptions and results *)

Inductive exn : Type :=
  | ValueError (msg : string)
  | KeyError (key : string)
  | HTTPError (status_code : nat)
  | OtherException (msg : string).

Inductive result (A : Type) : Type :=
  | Ok (a : A)
  | Raise (e : exn).
Arguments Ok {A} a.
Arguments Raise {A} e.

Definition rbind {A B : Type} (r : result A) (k : A → result B) : result B :=
  match r with
  | Ok a => k a
  | Raise e => Raise e
  end.

Definition rmap {A B : Type} (f : A → B) (r : result A) : result B :=
  rbind r (λ a, Ok (f a)).

Notation "x <-! r ;; k" := (rbind r (λ x, k))
  (at level 100, r at next level, right associativity).

(** ** Python strings *)

Module Str.

Definition code (c : ascii) : N := N_of_ascii c.

(** [str.isspace] on one character of the Latin-1 range. *)
Definition isspace (c : ascii) : bool :=
  let n := code c in
  ((9 <=? n) && (n <=? 13) || (28 <=? n) && (n <=? 32)
   || (n =? 133) || (n =? 160))%N.

(** [str.lower] on one character of the Latin-1 range. *)
Definition lower_char (c : ascii) : ascii :=
  let n := code c in
  if ((65 <=? n) && (n <=? 90)
      || (192 <=? n) && (n <=? 222) && negb (n =? 215))%N
  then ascii_of_N (n + 32) else c.

Fixpoint lower (s : string) : string :=
  match s with
  | EmptyString => EmptyString
  | String c s' => String (lower_char c) (lower s')
  end.

Fixpoint startswith (p s : string) : bool :=
  match p, s with
  | EmptyString, _ => true
  | String a p', String b s' => if Ascii.eqb a b then startswith p' s' else false
  | String _ _, EmptyString => false
  end.

(** [sub in s]. *)
Fixpoint contains (sub s : string) : bool :=
  startswith sub s ||
  match s with
  | EmptyString => false
  | String _ s' => contains sub s'
  end.

Fixpoint lstrip (s : string) : string :=
  match s with
  | String c s' => if isspace c then lstrip s' else s
  | EmptyString => EmptyString
  end.

Fixpoint rstrip (s : string) : string :=
  match s with
  | EmptyString => EmptyString
  | String c s' =>
      match rstrip s' with
      | EmptyString => if isspace c then EmptyString else String c EmptyString
      | r => String c r
      end
  end.

Definition strip (s : string) : string := rstrip (lstrip s).

(** [sep.join(l)]. *)
Fixpoint join (sep : string) (l : list string) : string :=
  match l with
  | [] => ""
  | [s] => s
  | s :: l' => s +:+ sep +:+ join sep l'
  end.

(** The line boundaries of [str.splitlines] below code point 256. *)
Definition is_linebreak (c : ascii) : bool :=
  let n := code c in
  ((10 <=? n) && (n <=? 13) || (28 <=? n) && (n <=? 30) || (n =? 133))%N.

(** [str.splitlines]: [cur] is the line being read, reversed.  A carriage
    return followed by a line feed is one boundary, and a final boundary
    opens no empty last line. *)
Fixpoint splitlines_go (cur : string) (s : string) : list string :=
  match s with
  | EmptyString =>
      match cur with
      | EmptyString => []
      | _ => [String.rev cur]
      end
  | String c s' =>
      if is_linebreak c then
        match s' with
        | String c' s'' =>
            if (code c =? 13)%N && (code c' =? 10)%N
            then String.rev cur :: splitlines_go "" s''
            else String.rev cur :: splitlines_go "" s'
        | EmptyString => [String.rev cur]
        end
      else splitlines_go (String c cur) s'
  end.

Definition splitlines (s : string) : list string := splitlines_go "" s.

(** Python's [x or y] on strings. *)
Definition or_else (x y : string) : string :=
  match x with
  | EmptyString => y
  | _ => x
  end.

(** Truthiness of a string. *)
Definition truthy (x : string) : bool :=
  match x with
  | EmptyString => false
  | _ => true
  end.

End Str.

(** ** The element tree BeautifulSoup builds *)

#[warnings="-register-all"]
Inductive Node : Type :=
  | NavigableString (s : string)
  | Comment (s : string)
  | Tag (name : string) (attrs : gmap string string) (contents : list Node).

(** The strings [Tag._all_strings] walks: the [NavigableString] descendants
    in document order; comments are of another type and are skipped. *)
Fixpoint all_strings (n : Node) : list string :=
  match n with
  | NavigableString s => [s]
  | Comment _ => []
  | Tag _ _ contents => flat_map all_strings contents
  end.

(** [tag.get_text(" ", strip=True)]: every string stripped, the empty ones
    dropped, the rest joined by one space. *)
Definition get_text (n : Node) : string :=
  Str.join " " (filter (λ s, s ≠ "") (Str.strip <$> all_strings n)).

(** [tag[key]]. *)
Definition getitem (n : Node) (key : string) : result string :=
  match n with
  | Tag _ attrs _ =>
      match attrs !! key with
      | Some v => Ok v
      | None => Raise (KeyError key)
      end
  | _ => Raise (KeyError key)
  end.

(** The filter of [find_all("a", href=True)] on one element. *)
Definition is_a_with_href (n : Node) : bool :=
  match n with
  | Tag name attrs _ => bool_decide (name = "a") && bool_decide (is_Some (attrs !! "href"))
  | _ => false
  end.

(** The matching elements below [n] (and [n] itself) in document order, each
    with its [.parent]. *)
Fixpoint find_all_from (parent : Node) (n : Node) : list (Node * Node) :=
  match n with
  | Tag _ _ contents =>
      (if is_a_with_href n then [(n, parent)] else [])
      ++ flat_map (find_all_from n) contents
  | _ => []
  end.

(** [soup.find_all("a", href=True)]: the descendants of the root. *)
Definition find_all_a (soup : Node) : list (Node * Node) :=
  match soup with
  | Tag _ _ contents => flat_map (find_all_from soup) contents
  | _ => []
  end.

(** Induction on the tree, with the property of every child at hand. *)

Section NodeInduction.

Variable P : Node → Prop.
Hypothesis Hstring : ∀ s, P (NavigableString s).
Hypothesis Hcomment : ∀ s, P (Comment s).
Hypothesis Htag : ∀ name attrs contents,
  Forall P contents → P (Tag name attrs contents).

Fixpoint Node_nested_ind (n : Node) : P n :=
  match n with
  | NavigableString s => Hstring s
  | Comment s => Hcomment s
  | Tag name attrs contents =>
      Htag name attrs contents
        ((fix go (l : list Node) : Forall P l :=
            match l with
            | [] => Forall_nil_2 P
            | x :: l' => Forall_cons_2 P x l' (Node_nested_ind x) (go l')
            end) contents)
  end.

End NodeInduction.

(** ** Candidates *)

Record Candidate : Type := mkCandidate { title : string; url : string }.

Global Instance Candidate_eq_dec : EqDecision Candidate.
Proof. solve_decision. Defined.

Definition MAX_LINKS_PER_SITE : nat := 200.

(** The key of the deduplication loop, [(m["url"], m["title"])]. *)
Definition key (m : Candidate) : string * string := (url m, title m).

(** The deduplication loop of [find_php_links_on_html]: [seen] and [deduped]
    are the loop's two variables, and the length test after each element is
    the loop's [break]. *)
Fixpoint dedup_loop (matches : list Candidate) (seen : gset (string * string))
    (deduped : list Candidate) : list Candidate :=
  match matches with
  | [] => deduped
  | m :: rest =>
      let '(seen', deduped') :=
        if decide (key m ∈ seen) then (seen, deduped)
        else (seen ∪ {[key m]}, deduped ++ [m]) in
      if decide (MAX_LINKS_PER_SITE ≤ length deduped')%nat then deduped'
      else dedup_loop rest seen' deduped'
  end.

(** ** What the run does to the outside: the log, the window, the network *)

Inductive log_line : Type :=
  | LogFetchError (url : string) (e : exn)      (* [fetch_page] Error fetching {url}: {e} *)
  | LogScraping (url : string)                  (* [scrape_site] Scraping {url} *)
  | LogFound (n : nat) (url : string).          (* [scrape_site] Found {n} candidate links on {url} *)

Inductive status_text : Type :=
  | StatusScraping                              (* Scraping... *)
  | StatusProgress (idx total : nat) (site : string)  (* Scraping ({idx}/{total}) {site} ... *)
  | StatusDone (total_count : nat).             (* Done, found {total_count} items *)

Inductive event : Type :=
  | Get (url : string)                          (* requests.get(url, ...) *)
  | Extract (html_text base_url : string)       (* find_php_links_on_html is called *)
  | Print (l : log_line)
  | ShowWarning (caption message : string)      (* messagebox.showwarning *)
  | RefreshButton (state : string)              (* refresh_btn.config(state=...) *)
  | SetStatus (t : status_text)
  | ClearResults
  | AddResult (title site url : string)
  | Sleep.                                      (* time.sleep(DELAY_BETWEEN_REQUESTS) *)

(** An effectful computation: the events it emits, in order, and how it
    ends.  The calls into the window (status, rows, button, dialog), the
    prints and the sleep are taken to return: the exceptions followed are
    those of the libraries the pipeline computes with. *)
Definition M (A : Type) : Type := list event * result A.

Definition ret {A : Type} (a : A) : M A := ([], Ok a).
Definition emit (e : event) : M unit := ([e], Ok tt).
Definition lift {A : Type} (r : result A) : M A := ([], r).

Definition bind {A B : Type} (m : M A) (k : A → M B) : M B :=
  match m with
  | (t, Ok a) => let '(t', r) := k a in (t ++ t', r)
  | (t, Raise e) => (t, Raise e)
  end.

Notation "x <- m ;; k" := (bind m (λ x, k))
  (at level 100, m at next level, right associativity).
Notation "m ;;; k" := (bind m (λ _, k))
  (at level 100, right associativity).

Definition trace {A : Type} (m : M A) : list event := m.1.
Definition outcome {A : Type} (m : M A) : result A := m.2.

(** What [requests.get] gives back: an exception of the transport
    (connection error, timeout, ...) or a response with its status. *)
Inductive reply : Type :=
  | Failed (e : exn)
  | Response (status_code : nat) (text : string).

(** [resp.text], empty when there is no response. *)
Definition response_text (r : reply) : string :=
  match r with
  | Response _ text => text
  | Failed _ => ""
  end.

(** [Response.raise_for_status] raises on a 4xx or 5xx status. *)
Definition raise_for_status (status_code : nat) : result unit :=
  if decide (400 ≤ status_code < 600)%nat
  then Raise (HTTPError status_code) else Ok tt.

Section Pipeline.

(** [BeautifulSoup(html_text, "html.parser")], [urljoin], [html.unescape],
    [urlparse(site).scheme] and [requests.get]. *)
Variable BeautifulSoup : string → result Node.
Variable urljoin : string → string → result string.
Variable unescape : string → string.
Variable urlparse_scheme : string → result string.
Variable requests_get : string → reply.

(** Rule A: the keyword in the anchor's own text or in its href. *)
Definition rule_a (a : Node) (href : string) : bool :=
  Str.contains "php" (Str.lower (Str.or_else (get_text a) ""))
  || Str.contains "php" (Str.lower href).

(** Rule B: the keyword in the text of the parent element. *)
Definition rule_b (parent : Node) : bool :=
  Str.contains "php" (Str.lower (get_text parent)).

(** What either branch appends for an anchor. *)
Definition candidate_of (base_url : string) (a : Node) (href : string)
    : result Candidate :=
  let title := Str.or_else (get_text a) href in
  full <-! urljoin base_url href ;;
  Ok (mkCandidate (unescape title) full).

(** The loop over the anchors; [matches] is the list being appended to.
    Every element [find_all] returns lies below the root, so its [parent] is
    an element, and an element is truthy whatever it holds: the test
    [if parent] of the second branch always passes and is left out. *)
Fixpoint collect (base_url : string) (anchors : list (Node * Node))
    (matches : list Candidate) : result (list Candidate) :=
  match anchors with
  | [] => Ok matches
  | (a, parent) :: rest =>
      href <-! getitem a "href" ;;
      if rule_a a href then
        m <-! candidate_of base_url a href ;;
        collect base_url rest (matches ++ [m])
      else if rule_b parent then
        m <-! candidate_of base_url a href ;;
        collect base_url rest (matches ++ [m])
      else collect base_url rest matches
  end.

(** The list [matches] when the first loop ends. *)
Definition raw_matches (html_text base_url : string) : result (list Candidate) :=
  soup <-! BeautifulSoup html_text ;;
  collect base_url (find_all_a soup) [].

Definition find_php_links_on_html (html_text base_url : string)
    : result (list Candidate) :=
  matches <-! raw_matches html_text base_url ;;
  Ok (dedup_loop matches ∅ []).

(** [fetch_page]: the page text, or [None] after any exception. *)
Definition fetch_page (url : string) : M (option string) :=
  emit (Get url) ;;;
  match requests_get url with
  | Failed e => emit (Print (LogFetchError url e)) ;;; ret None
  | Response status_code text =>
      match raise_for_status status_code with
      | Raise e => emit (Print (LogFetchError url e)) ;;; ret None
      | Ok _ => ret (Some text)
      end
  end.

Definition scrape_site (url : string) : M (list Candidate) :=
  emit (Print (LogScraping url)) ;;;
  html_text <- fetch_page url ;;
  match html_text with
  | None => ret []
  | Some text =>
      if Str.truthy text then
        emit (Extract text url) ;;;
        links <- lift (find_php_links_on_html text url) ;;
        emit (Print (LogFound (length links) url)) ;;;
        ret links
      else ret []
  end.

(** The inner loop of [scrape_and_display] over the links of one site. *)
Fixpoint add_results (site : string) (links : list Candidate)
    (total_count : nat) : M nat :=
  match links with
  | [] => ret total_count
  | l :: rest =>
      let title := Str.or_else (title l) (url l) in
      emit (AddResult title site (url l)) ;;;
      add_results site rest (total_count + 1)
  end.

(** One iteration of the loop over the sites. *)
Definition scrape_one (n_sites idx : nat) (site : string) (total_count : nat)
    : M nat :=
  scheme <- lift (urlparse_scheme site) ;;
  let site := if Str.truthy scheme then site else "https://" +:+ site in
  emit (SetStatus (StatusProgress idx n_sites site)) ;;;
  links <- scrape_site site ;;
  total_count <- add_results site links total_count ;;
  emit Sleep ;;;
  ret total_count.

(** The loop [for idx, site in enumerate(sites, 1)]. *)
Fixpoint scrape_loop (n_sites idx : nat) (sites : list string)
    (total_count : nat) : M nat :=
  match sites with
  | [] => ret total_count
  | site :: rest =>
      total_count <- scrape_one n_sites idx site total_count ;;
      scrape_loop n_sites (idx + 1) rest total_count
  end.

(** The list [sites] read from the text widget. *)
Definition sites_of (sites_text : string) : list string :=
  let raw := Str.strip sites_text in
  Str.strip <$> filter (λ line, Str.truthy (Str.strip line) = true)
                       (Str.splitlines raw).

Definition scrape_and_display (sites_text : string) : M unit :=
  let sites := sites_of sites_text in
  match sites with
  | [] =>
      emit (ShowWarning "No sites" "Please add at least one site URL to scan.")
  | _ =>
      emit (RefreshButton "disabled") ;;;
      emit (SetStatus StatusScraping) ;;;
      emit ClearResults ;;;
      total_count <- scrape_loop (length sites) 1 sites 0 ;;
      emit (SetStatus (StatusDone total_count)) ;;;
      emit (RefreshButton "normal")
  end.

End Pipeline.

(** ** A model of [urllib.parse] (CPython 3.11) on [str]

    [urlsplit], [urlparse], [urlunparse] and [urljoin] as the library writes
    them.  Outside the model: the validation of a bracketed host (a netloc
    with both brackets is accepted as it is) and the NFKC check, which only
    concerns a netloc with characters beyond ASCII. *)

Module Urllib.

Definition is_char (a : ascii) (c : ascii) : bool := Ascii.eqb a c.

Definition isalpha_ascii (c : ascii) : bool :=
  let n := Str.code c in
  ((65 <=? n) && (n <=? 90) || (97 <=? n) && (n <=? 122))%N.

Definition scheme_char (c : ascii) : bool :=
  let n := Str.code c in
  (isalpha_ascii c || (48 <=? n) && (n <=? 57)
   || (n =? 43) || (n =? 45) || (n =? 46))%N.

Fixpoint forall_chars (p : ascii → bool) (s : string) : bool :=
  match s with
  | EmptyString => true
  | String c s' => p c && forall_chars p s'
  end.

Fixpoint exists_char (p : ascii → bool) (s : string) : bool :=
  match s with
  | EmptyString => false
  | String c s' => p c || exists_char p s'
  end.

(** The longest prefix without a character of [p], and the rest. *)
Fixpoint break (p : ascii → bool) (s : string) : string * string :=
  match s with
  | EmptyString => ("", "")
  | String c s' =>
      if p c then ("", s)
      else let '(a, b) := break p s' in (String c a, b)
  end.

(** [s.split(c)]. *)
Fixpoint split (c : ascii) (s : string) : list string :=
  match s with
  | EmptyString => [""]
  | String d s' =>
      if Ascii.eqb c d then "" :: split c s'
      else match split c s' with
           | x :: l => String d x :: l
           | [] => [String d ""]
           end
  end.

(** [url.lstrip(_WHATWG_C0_CONTROL_OR_SPACE)]. *)
Fixpoint lstrip_c0 (s : string) : string :=
  match s with
  | String c s' => if (Str.code c <=? 32)%N then lstrip_c0 s' else s
  | EmptyString => EmptyString
  end.

(** The removal of tab, carriage return and line feed. *)
Fixpoint remove_unsafe (s : string) : string :=
  match s with
  | EmptyString => EmptyString
  | String c s' =>
      let n := Str.code c in
      if ((n =? 9) || (n =? 10) || (n =? 13))%N then remove_unsafe s'
      else String c (remove_unsafe s')
  end.

Record SplitResult : Type := mkSplit {
  sr_scheme : string; sr_netloc : string; sr_path : string;
  sr_query : string; sr_fragment : string }.

Record ParseResult : Type := mkParse {
  scheme : string; netloc : string; path : string;
  params : string; query : string; fragment : string }.

(** The scheme branch of [urlsplit]: the scheme found, or the default, and
    what follows it. *)
Definition split_scheme (url default : string) : string * string :=
  let '(pre, rest) := break (is_char ":") url in
  match pre, rest with
  | String c0 _, String _ rest' =>
      if isalpha_ascii c0 && forall_chars scheme_char pre
      then (Str.lower pre, rest') else (default, url)
  | _, _ => (default, url)
  end.

Definition is_delim (c : ascii) : bool :=
  is_char "/" c || is_char "?" c || is_char "#" c.

Definition urlsplit (url default : string) : result SplitResult :=
  let url := remove_unsafe (lstrip_c0 url) in
  let '(scheme, url) := split_scheme url default in
  nl <-! match url with
         | String "/" (String "/" rest) =>
             let '(netloc, url) := break is_delim rest in
             let lb := exists_char (is_char "[") netloc in
             let rb := exists_char (is_char "]") netloc in
             if lb && negb rb || rb && negb lb
             then Raise (ValueError "Invalid IPv6 URL")
             else Ok (netloc, url)
         | _ => Ok ("", url)
         end ;;
  let '(netloc, url) := nl in
  let '(url, fragment) :=
    match break (is_char "#") url with
    | (u, String _ f) => (u, f)
    | (u, EmptyString) => (u, "")
    end in
  let '(url, query) :=
    match break (is_char "?") url with
    | (u, String _ q) => (u, q)
    | (u, EmptyString) => (u, "")
    end in
  Ok (mkSplit scheme netloc url query fragment).

Definition uses_relative : list string :=
  [""; "ftp"; "http"; "gopher"; "nntp"; "imap"; "wais"; "file"; "https";
   "shttp"; "mms"; "prospero"; "rtsp"; "rtspu"; "sftp"; "svn"; "svn+ssh";
   "ws"; "wss"].

Definition uses_netloc : list string :=
  [""; "ftp"; "http"; "gopher"; "nntp"; "telnet"; "imap"; "wais"; "file";
   "mms"; "https"; "shttp"; "snews"; "prospero"; "rtsp"; "rtspu"; "rsync";
   "svn"; "svn+ssh"; "sftp"; "nfs"; "git"; "git+ssh"; "ws"; "wss"].

Definition uses_params : list string :=
  [""; "ftp"; "hdl"; "prospero"; "http"; "imap"; "https"; "shttp"; "rtsp";
   "rtspu"; "sip"; "sips"; "mms"; "sftp"; "tel"].

Definition mem (x : string) (l : list string) : bool := bool_decide (x ∈ l).

(** [_splitparams]: the parameters start at the first semicolon of the
    last path segment. *)
Definition _splitparams (url : string) : string * string :=
  let segs := split "/" url in
  match reverse segs with
  | last_seg :: before_rev =>
      match break (is_char ";") last_seg with
      | (a, String _ b) =>
          (Str.join "/" (reverse (a :: before_rev)), b)
      | (_, EmptyString) => (url, "")
      end
  | [] => (url, "")
  end.

Definition urlparse (url default : string) : result ParseResult :=
  sp <-! urlsplit url default ;;
  let url := sr_path sp in
  let '(url, params) :=
    if mem (sr_scheme sp) uses_params && exists_char (is_char ";") url
    then _splitparams url else (url, "") in
  Ok (mkParse (sr_scheme sp) (sr_netloc sp) url params
              (sr_query sp) (sr_fragment sp)).

Definition urlunsplit (scheme netloc url query fragment : string) : string :=
  let url :=
    if Str.truthy netloc
       || Str.truthy scheme && mem scheme uses_netloc
          && negb (Str.startswith "//" url)
    then
      let url := if Str.truthy url && negb (Str.startswith "/" url)
                 then "/" +:+ url else url in
      "//" +:+ netloc +:+ url
    else url in
  let url := if Str.truthy scheme then scheme +:+ ":" +:+ url else url in
  let url := if Str.truthy query then url +:+ "?" +:+ query else url in
  if Str.truthy fragment then url +:+ "#" +:+ fragment else url.

Definition urlunparse (p : ParseResult) : string :=
  let url := if Str.truthy (params p) then path p +:+ ";" +:+ params p
             else path p in
  urlunsplit (scheme p) (netloc p) url (query p) (fragment p).

(** [segments[1:-1] = filter(None, segments[1:-1])]. *)
Definition drop_empty_inner (segments : list string) : list string :=
  match segments with
  | first :: rest =>
      match reverse rest with
      | last_seg :: inner_rev =>
          first :: filter (λ x, x ≠ "") (reverse inner_rev) ++ [last_seg]
      | [] => segments
      end
  | [] => []
  end.

(** The loop of [urljoin] over the segments; [resolved_path] is kept
    reversed. *)
Fixpoint resolve (segments : list string) (resolved_rev : list string)
    : list string :=
  match segments with
  | [] => reverse resolved_rev
  | seg :: rest =>
      if bool_decide (seg = "..") then resolve rest (tail resolved_rev)
      else if bool_decide (seg = ".") then resolve rest resolved_rev
      else resolve rest (seg :: resolved_rev)
  end.

Definition urljoin (base url : string) : result string :=
  if negb (Str.truthy base) then Ok url
  else if negb (Str.truthy url) then Ok base
  else
    b <-! urlparse base "" ;;
    u <-! urlparse url (scheme b) ;;
    if negb (bool_decide (scheme u = scheme b))
       || negb (mem (scheme u) uses_relative)
    then Ok url
    else if mem (scheme u) uses_netloc && Str.truthy (netloc u)
    then Ok (urlunparse u)
    else
      let netloc' := if mem (scheme u) uses_netloc then netloc b else netloc u in
      if negb (Str.truthy (path u)) && negb (Str.truthy (params u)) then
        let query' := if Str.truthy (query u) then query u else query b in
        Ok (urlunparse (mkParse (scheme u) netloc' (path b) (params b)
                                query' (fragment u)))
      else
        let base_parts := split "/" (path b) in
        let base_parts :=
          match reverse base_parts with
          | last_seg :: before_rev =>
              if bool_decide (last_seg = "") then base_parts
              else reverse before_rev
          | [] => base_parts
          end in
        let segments :=
          if Str.startswith "/" (path u) then split "/" (path u)
          else drop_empty_inner (base_parts ++ split "/" (path u)) in
        let resolved_path := resolve segments [] in
        let resolved_path :=
          match reverse segments with
          | last_seg :: _ =>
              if bool_decide (last_seg = ".") || bool_decide (last_seg = "..")
              then resolved_path ++ [""] else resolved_path
          | [] => resolved_path
          end in
        Ok (urlunparse (mkParse (scheme u) netloc'
                                (Str.or_else (Str.join "/" resolved_path) "/")
                                (params u) (query u) (fragment u)))
  .

(** [urlparse(site).scheme]. *)
Definition urlparse_scheme (site : string) : result string :=
  rmap scheme (urlparse site "").

End Urllib.

(** ** A model of [BeautifulSoup(html_text, "html.parser")]

    The tokens of [html.parser] and the tree BeautifulSoup builds from them,
    on pages made of text, start tags (attribute values in either quote,
    bare, or absent), self-closing tags and end tags.  Outside the model:
    character references (text and values are kept as written), comments,
    declarations and processing instructions, the raw content of script and
    style, a page that ends inside a tag, and the tolerant recovery from a
    quote that is never closed.  A string of white space only is kept as
    written: BeautifulSoup shortens it to one character, and [get_text]
    drops it either way.  This constructor never raises. *)

Module Bs4.

Inductive token : Type :=
  | TData (s : string)
  | TStart (tag : string) (attrs : list (string * string)) (startend : bool)
  | TEnd (tag : string).

Inductive lexer_state : Type :=
  | Data (text_rev : string)
  | StartName (name_rev : string)
  | BeforeAttr (tag : string) (attrs : list (string * string)) (slash : bool)
  | AttrName (tag : string) (attrs : list (string * string)) (an_rev : string)
  | AfterAttrName (tag : string) (attrs : list (string * string)) (an : string)
  | AfterEq (tag : string) (attrs : list (string * string)) (an : string)
  | BeforeValue (tag : string) (attrs : list (string * string)) (an : string)
  | ValueQuoted (tag : string) (attrs : list (string * string)) (an : string)
                (q : ascii) (v_rev : string)
  | ValueBare (tag : string) (attrs : list (string * string)) (an : string)
              (v_rev : string)
  | EndSlash
  | EndName (name_rev : string)
  | EndRest (tag : string).

Definition is_gt (c : ascii) : bool := Ascii.eqb c ">".
Definition is_slash (c : ascii) : bool := Ascii.eqb c "/".
Definition is_eq (c : ascii) : bool := Ascii.eqb c "=".
Definition is_quote (c : ascii) : bool :=
  Ascii.eqb c "034" || Ascii.eqb c "039".

(** The characters that end a tag name. *)
Definition ends_name (c : ascii) : bool :=
  let n := Str.code c in
  ((n =? 9) || (n =? 10) || (n =? 13) || (n =? 12) || (n =? 32)
   || (n =? 0))%N || is_slash c || is_gt c.

Definition name_of (name_rev : string) : string :=
  Str.lower (String.rev name_rev).

Definition data_token (text_rev : string) : list token :=
  match text_rev with
  | EmptyString => []
  | _ => [TData (String.rev text_rev)]
  end.

Definition with_attr (attrs : list (string * string)) (an v : string)
    : list (string * string) :=
  attrs ++ [(Str.lower an, v)].

Fixpoint lex (st : lexer_state) (s : string) : list token :=
  match s with
  | EmptyString =>
      match st with
      | Data text_rev => data_token text_rev
      | _ => []
      end
  | String c s' =>
      match st with
      | Data text_rev =>
          if Ascii.eqb c "<" then
            match s' with
            | String c1 s'' =>
                if Urllib.isalpha_ascii c1
                then data_token text_rev ++ lex (StartName "") s'
                else if is_slash c1 then
                  match s'' with
                  | String c2 _ =>
                      if Urllib.isalpha_ascii c2
                      then data_token text_rev ++ lex EndSlash s'
                      else lex (Data (String c text_rev)) s'
                  | EmptyString => lex (Data (String c text_rev)) s'
                  end
                else lex (Data (String c text_rev)) s'
            | EmptyString => lex (Data (String c text_rev)) s'
            end
          else lex (Data (String c text_rev)) s'
      | StartName name_rev =>
          if is_gt c then TStart (name_of name_rev) [] false :: lex (Data "") s'
          else if ends_name c
          then lex (BeforeAttr (name_of name_rev) [] (is_slash c)) s'
          else lex (StartName (String c name_rev)) s'
      | BeforeAttr tag attrs slash =>
          if is_gt c then TStart tag attrs slash :: lex (Data "") s'
          else if is_slash c then lex (BeforeAttr tag attrs true) s'
          else if Str.isspace c then lex (BeforeAttr tag attrs false) s'
          else lex (AttrName tag attrs (String c "")) s'
      | AttrName tag attrs an_rev =>
          let an := String.rev an_rev in
          if is_gt c then TStart tag (with_attr attrs an "") false :: lex (Data "") s'
          else if is_slash c then lex (BeforeAttr tag (with_attr attrs an "") true) s'
          else if is_eq c then lex (AfterEq tag attrs an) s'
          else if Str.isspace c then lex (AfterAttrName tag attrs an) s'
          else lex (AttrName tag attrs (String c an_rev)) s'
      | AfterAttrName tag attrs an =>
          if is_gt c then TStart tag (with_attr attrs an "") false :: lex (Data "") s'
          else if is_slash c then lex (BeforeAttr tag (with_attr attrs an "") true) s'
          else if is_eq c then lex (AfterEq tag attrs an) s'
          else if Str.isspace c then lex (AfterAttrName tag attrs an) s'
          else lex (AttrName tag (with_attr attrs an "") (String c "")) s'
      | AfterEq tag attrs an =>
          if is_gt c then TStart tag (with_attr attrs an "") false :: lex (Data "") s'
          else if is_eq c then lex (AfterEq tag attrs an) s'
          else if Str.isspace c then lex (BeforeValue tag attrs an) s'
          else if is_quote c then lex (ValueQuoted tag attrs an c "") s'
          else lex (ValueBare tag attrs an (String c "")) s'
      | BeforeValue tag attrs an =>
          if is_gt c then TStart tag (with_attr attrs an "") false :: lex (Data "") s'
          else if Str.isspace c then lex (BeforeValue tag attrs an) s'
          else if is_quote c then lex (ValueQuoted tag attrs an c "") s'
          else lex (ValueBare tag attrs an (String c "")) s'
      | ValueQuoted tag attrs an q v_rev =>
          if Ascii.eqb c q
          then lex (BeforeAttr tag (with_attr attrs an (String.rev v_rev)) false) s'
          else lex (ValueQuoted tag attrs an q (String c v_rev)) s'
      | ValueBare tag attrs an v_rev =>
          let v := String.rev v_rev in
          if is_gt c then TStart tag (with_attr attrs an v) false :: lex (Data "") s'
          else if Str.isspace c then lex (BeforeAttr tag (with_attr attrs an v) false) s'
          else lex (ValueBare tag attrs an (String c v_rev)) s'
      | EndSlash => lex (EndName "") s'
      | EndName name_rev =>
          if is_gt c then TEnd (name_of name_rev) :: lex (Data "") s'
          else if ends_name c then lex (EndRest (name_of name_rev)) s'
          else lex (EndName (String c name_rev)) s'
      | EndRest tag =>
          if is_gt c then TEnd tag :: lex (Data "") s'
          else lex (EndRest tag) s'
      end
  end.

(** An element still open: its name, its attributes and its children so
    far, the last one first. *)
Record frame : Type := mkFrame {
  f_name : string; f_attrs : gmap string string; f_children_rev : list Node }.

(** The stack of open elements below the root, the innermost first, and
    the children of the root so far. *)
Definition builder : Type := list frame * list Node.

Definition add_child (n : Node) (b : builder) : builder :=
  match b with
  | (f :: open, root_rev) =>
      (mkFrame (f_name f) (f_attrs f) (n :: f_children_rev f) :: open, root_rev)
  | ([], root_rev) => ([], n :: root_rev)
  end.

Definition popTag (b : builder) : builder :=
  match b with
  | (f :: open, root_rev) =>
      add_child (Tag (f_name f) (f_attrs f) (reverse (f_children_rev f)))
                (open, root_rev)
  | ([], _) => b
  end.

(** How many elements [_popToTag] closes: down to the innermost open
    element of that name, none when no such element is open. *)
Fixpoint depth_of (tag : string) (open : list frame) : nat :=
  match open with
  | [] => 0
  | f :: open' =>
      if bool_decide (f_name f = tag) then 1
      else match depth_of tag open' with
           | 0 => 0
           | S d => S (S d)
           end
  end.

Definition empty_element_tags : list string :=
  ["area"; "base"; "br"; "col"; "embed"; "hr"; "img"; "input"; "keygen";
   "link"; "menuitem"; "meta"; "param"; "source"; "track"; "wbr";
   "basefont"; "bgsound"; "command"; "frame"; "image"; "isindex"; "nextid";
   "spacer"].

(** The attribute dictionary: a later duplicate replaces an earlier one. *)
Definition attr_dict (attrs : list (string * string)) : gmap string string :=
  fold_left (λ d kv, <[kv.1 := kv.2]> d) attrs ∅.

Definition feed (b : builder) (t : token) : builder :=
  match t with
  | TData s => add_child (NavigableString s) b
  | TStart tag attrs startend =>
      if startend || bool_decide (tag ∈ empty_element_tags)
      then add_child (Tag tag (attr_dict attrs) []) b
      else (mkFrame tag (attr_dict attrs) [] :: b.1, b.2)
  | TEnd tag => Nat.iter (depth_of tag b.1) popTag b
  end.

Definition BeautifulSoup (html_text : string) : result Node :=
  let b := fold_left feed (lex (Data "") html_text) ([], []) in
  let b := Nat.iter (length b.1) popTag b in
  Ok (Tag "[document]" ∅ (reverse b.2)).

End Bs4.

(** ** A model of [html.unescape]

    Exact on a string without an ampersand, which it returns unchanged; of
    the character references only the five of XML are resolved, with their
    semicolon. *)

Module Html.

Definition references : list (string * ascii) :=
  [("&amp;", "&"%char); ("&lt;", "<"%char); ("&gt;", ">"%char);
   ("&quot;", "034"%char); ("&apos;", "039"%char)].

Fixpoint drop_chars (n : nat) (s : string) : string :=
  match n, s with
  | S n', String _ s' => drop_chars n' s'
  | _, _ => s
  end.

(** The reference [s] starts with, if any. *)
Definition reference_at (s : string) : option (string * ascii) :=
  List.find (λ r, Str.startswith r.1 s) references.

(** [skip] counts the characters of a reference still to be passed. *)
Fixpoint unescape_go (skip : nat) (s : string) : string :=
  match s with
  | EmptyString => EmptyString
  | String c s' =>
      match skip with
      | S k => unescape_go k s'
      | 0 =>
          match reference_at s with
          | Some (r, d) => String d (unescape_go (String.length r - 1) s')
          | None => String c (unescape_go 0 s')
          end
      end
  end.

Definition unescape (s : string) : string := unescape_go 0 s.

End Html.

(** The extractor and the runner over the three models; the network stays a
    parameter. *)
Definition py_find_php_links_on_html : string → string → result (list Candidate) :=
  find_php_links_on_html Bs4.BeautifulSoup Urllib.urljoin Html.unescape.

Definition py_scrape_and_display (requests_get : string → reply)
    : string → M unit :=
  scrape_and_display Bs4.BeautifulSoup Urllib.urljoin Html.unescape
                     Urllib.urlparse_scheme requests_get.

(** ** Definitions the statements use *)

(** Deduplication on the key that keeps every first occurrence, in order:
    the specification of the second loop of the extractor. *)
Fixpoint dedup_first (l : list Candidate) : list Candidate :=
  match l with
  | [] => []
  | m :: l' => m :: filter (λ x, key x ≠ key m) (dedup_first l')
  end.

(** Deduplicate, then truncate to [maxResults] entries. *)
Definition dedup_then_truncate (maxResults : nat) (l : list Candidate)
    : list Candidate :=
  take maxResults (dedup_first l).

(** The results of [f] over a list, up to the first exception. *)
Fixpoint rmapM {A B : Type} (f : A → result B) (l : list A) : result (list B) :=
  match l with
  | [] => Ok []
  | x :: l' => y <-! f x ;; ys <-! rmapM f l' ;; Ok (y :: ys)
  end.

(** The href of an element, empty when it has none. *)
Definition href_of (a : Node) : string :=
  match a with
  | Tag _ attrs _ => default "" (attrs !! "href")
  | _ => ""
  end.

(** An anchor is matched when rule A or rule B holds of it. *)
Definition matched (ap : Node * Node) : bool :=
  rule_a ap.1 (href_of ap.1) || rule_b ap.2.

(** The candidate of an anchor, from the element and its parent. *)
Definition candidate (urljoin : string → string → result string)
    (unescape : string → string) (base_url : string) (ap : Node * Node)
    : result Candidate :=
  candidate_of urljoin unescape base_url ap.1 (href_of ap.1).

(** [kw] occurs in [s] when case is ignored: a piece of [s] has the lower
    case of [kw]. *)
Definition occurs_ignoring_case (kw s : string) : Prop :=
  ∃ pre mid post, s = pre +:+ mid +:+ post ∧ Str.lower mid = Str.lower kw.

(** The URLs requested, the rows added and the final status in a trace. *)
Definition fetched_urls (t : list event) : list string :=
  omap (λ e, match e with Get u => Some u | _ => None end) t.

Definition rows (t : list event) : list (string * string * string) :=
  omap (λ e, match e with AddResult ti s u => Some (ti, s, u) | _ => None end) t.

Definition final_counts (t : list event) : list nat :=
  omap (λ e, match e with SetStatus (StatusDone n) => Some n | _ => None end) t.

(** ** The run, site by site *)

(** The URL a site is fetched under: lines 197 to 199 of the script. *)
Definition normalized (scheme site : string) : string :=
  if Str.truthy scheme then site else "https://" +:+ site.

Definition site_url (urlparse_scheme : string → result string) (site : string)
    : string :=
  match urlparse_scheme site with
  | Ok scheme => normalized scheme site
  | Raise _ => site
  end.

(** How the visit of one URL ends. *)
Inductive site_outcome : Type :=
  | FetchFailure (e : exn)             (* the transport raised, or a 4xx or 5xx status *)
  | EmptyBody                          (* a response with a falsy text *)
  | Links (links : list Candidate)     (* the extractor returned *)
  | Defect (text : string) (e : exn).  (* the extractor raised *)

Section SiteOutcome.

Variable BeautifulSoup : string → result Node.
Variable urljoin : string → string → result string.
Variable unescape : string → string.
Variable urlparse_scheme : string → result string.
Variable requests_get : string → reply.

Definition site_outcome_of (url : string) : site_outcome :=
  match requests_get url with
  | Failed e => FetchFailure e
  | Response status_code text =>
      match raise_for_status status_code with
      | Raise e => FetchFailure e
      | Ok _ =>
          if Str.truthy text then
            match find_php_links_on_html BeautifulSoup urljoin unescape text url with
            | Ok links => Links links
            | Raise e => Defect text e
            end
          else EmptyBody
      end
  end.

(** The links a site contributes: none unless its page was fetched with a
    text and the extractor returned. *)
Definition site_links (site : string) : list Candidate :=
  match site_outcome_of (site_url urlparse_scheme site) with
  | Links links => links
  | _ => []
  end.

(** The row [add_result] receives for a link. *)
Definition row_of (site_url : string) (l : Candidate) : string * string * string :=
  (Str.or_else (title l) (url l), site_url, url l).

(** The call of [add_result] for a link. *)
Definition row_event (site_url : string) (l : Candidate) : event :=
  AddResult (Str.or_else (title l) (url l)) site_url (url l).

Definition site_rows (site : string) : list (string * string * string) :=
  row_of (site_url urlparse_scheme site) <$> site_links site.

(** No exception escapes the visit of this site: its URL parses, and the
    extractor returns on the page fetched for it. *)
Definition site_clean (site : string) : Prop :=
  (∃ scheme, urlparse_scheme site = Ok scheme) ∧
  ∀ status_code text,
    requests_get (site_url urlparse_scheme site) = Response status_code text →
    ¬ (400 ≤ status_code < 600) →
    Str.truthy text = true →
    ∃ links,
      find_php_links_on_html BeautifulSoup urljoin unescape text
        (site_url urlparse_scheme site) = Ok links.

(** The fetch of this site fails: the transport raises or the status is an
    error. *)
Definition fetch_fails (site : string) : Prop :=
  (∃ scheme, urlparse_scheme site = Ok scheme) ∧
  match requests_get (site_url urlparse_scheme site) with
  | Failed _ => True
  | Response status_code _ => 400 ≤ status_code < 600
  end.

End SiteOutcome.

(** ** Example pages *)

(** One double quote. *)
Definition quot : string := String (ascii_of_N 34) "".

Definition jobs_test : string := "https://jobs.test".

(** Two anchors at the top of the page, one of them about PHP. *)
Definition two_jobs_html : string :=
  "<a href=" +:+ quot +:+ "/job/1" +:+ quot +:+ ">Senior PHP Developer</a>"
  +:+ "<a href=" +:+ quot +:+ "/job/2" +:+ quot +:+ ">Designer</a>".

Definition senior_php : Candidate :=
  mkCandidate "Senior PHP Developer" "https://jobs.test/job/1".

Definition designer : Candidate :=
  mkCandidate "Designer" "https://jobs.test/job/2".

(** A page of [k] anchors with the keyword in their href, all different. *)
Definition php_anchor (n : nat) : string :=
  "<a href=/php/" +:+ pretty n +:+ ">job</a>".

Definition php_page (k : nat) : string := Str.join "" (php_anchor <$> seq 1 k).

(** An anchor without text and with an empty href, in a paragraph that
    mentions the keyword. *)
Definition empty_anchor_html : string := "<p>php <a href=''></a></p>".

(** An anchor with the keyword in its href, beside an anchor with the
    keyword in its text whose href no URL parser accepts. *)
Definition bad_neighbour_html : string :=
  "<a href=/php/1>job</a><a href=//[>php</a>".

(** The tree of a page under the model, and the anchors found in it. *)
Definition soup_of (html_text : string) : Node :=
  match Bs4.BeautifulSoup html_text with
  | Ok soup => soup
  | Raise _ => Tag "[document]" ∅ []
  end.

Definition last_anchor (html_text : string) : Node * Node :=
  default (Comment "", Comment "") (last (find_all_a (soup_of html_text))).

Definition first_anchor (html_text : string) : Node * Node :=
  default (Comment "", Comment "") (head (find_all_a (soup_of html_text))).

Definition links_of (html_text base_url : string) : list Candidate :=
  match py_find_php_links_on_html html_text base_url with
  | Ok links => links
  | Raise _ => []
  end.

(** ** Example networks *)

Definition line_feed : string := String (ascii_of_N 10) "".

(** Two sites: the page of the first holds an anchor whose href no URL
    parser accepts, the page of the second a plain PHP job. *)
Definition bad_href_web (url : string) : reply :=
  if bool_decide (url = "https://a.test")
  then Response 200 "<a href=//[>php</a>"
  else Response 200 "<a href=/job/7>PHP job</a>".

Definition two_sites : string := "a.test" +:+ line_feed +:+ "b.test".

(** Three sites: the first is down, the second answers 404, the third
    serves the page of two jobs. *)
Definition flaky_web (url : string) : reply :=
  if bool_decide (url = "https://down.test")
  then Failed (OtherException "ConnectionError")
  else if bool_decide (url = "https://gone.test/jobs")
  then Response 404 "<a href=/x>php</a>"
  else Response 200 two_jobs_html.

Definition three_sites : string :=
  "down.test" +:+ line_feed +:+ "gone.test/jobs" +:+ line_feed
  +:+ "  https://jobs.test  " +:+ line_feed.

(** Every site is down. *)
Definition dead_web (url : string) : reply := Failed (OtherException "timeout").

(** A site that answers with an empty body. *)
Definition empty_web (url : string) : reply := Response 200 "".

(** Three lines, the second of which [urlparse] rejects. *)
Definition broken_line_sites : string :=
  "ok.test" +:+ line_feed +:+ "//[" +:+ line_feed +:+ "later.test".

(** A site that is down, before the two sites of [bad_href_web]. *)
Definition down_then_bad_web (url : string) : reply :=
  if bool_decide (url = "https://down.test")
  then Failed (OtherException "ConnectionError")
  else bad_href_web url.

Definition down_then_bad_sites : string :=
  "down.test" +:+ line_feed +:+ "a.test" +:+ line_feed +:+ "b.test".

(** A site that answers 300 Multiple Choices, with the page of two jobs as
    its body: [raise_for_status] raises on 4xx and 5xx only. *)
Definition choices_web (url : string) : reply := Response 300 two_jobs_html.

(** A parser that gives up on every page. *)
Definition failing_parser (html_text : string) : result Node :=
  Raise (OtherException "parser").

(** Blank lines only. *)
Definition blank_text : string := "  " +:+ line_feed +:+ " " +:+ line_feed.

(** ** The rest of the window: the seed list, the table, the double click *)

(** The list [SITES] the text widget is seeded with. *)
Definition SITES : list string :=
  ["https://remoteok.com/remote-php-jobs";
   "https://weworkremotely.com/categories/remote-programming-jobs";
   "https://www.indeed.com/jobs?q=php&l=";
   "https://wuzzuf.net/search/jobs/?a=hpb&q=php";
   "https://wuzzuf.net/search/jobs/?a=spbg&q=php";
   "https://forasna.com/jobs?q=php"].

(** A string without a line boundary of [str.splitlines]. *)
Fixpoint no_linebreak (s : string) : bool :=
  match s with
  | EmptyString => true
  | String c s' => negb (Str.is_linebreak c) && no_linebreak s'
  end.

(** A string of white space only. *)
Fixpoint all_space (s : string) : bool :=
  match s with
  | EmptyString => true
  | String c s' => Str.isspace c && all_space s'
  end.

(** A line of the text widget that is read back as it was written: not
    empty, equal to its own [strip], within one line. *)
Definition site_line (s : string) : Prop :=
  s ≠ "" ∧ Str.strip s = s ∧ no_linebreak s = true.

(** The rows of the results table: the values given to [tree.insert], in
    the order of the table. *)
Definition table : Type := list (string * string * string).

(** [clear_results]: every child of the table is deleted. *)
Definition clear_results (tree : table) : table := [].

(** [add_result]: one row at the end, with the url as third value. *)
Definition add_result (tree : table) (title site url : string) : table :=
  tree ++ [(title, site, url)].

(** The table after the events of a run, from the table before it. *)
Definition table_step (tree : table) (e : event) : table :=
  match e with
  | ClearResults => clear_results tree
  | AddResult title site url => add_result tree title site url
  | _ => tree
  end.

Definition table_after (tree : table) (t : list event) : table :=
  fold_left table_step t tree.

(** What a double click does to the outside. *)
Inductive click_event : Type :=
  | OpenBrowser (url : string)                  (* webbrowser.open(url) *)
  | ShowInfo (caption message : string).        (* messagebox.showinfo *)

(** [values[i]]. *)
Definition index (values : list string) (i : nat) : result string :=
  match values !! i with
  | Some v => Ok v
  | None => Raise (OtherException "IndexError")
  end.

(** [on_item_double_click].  [selection] is what [tree.selection()] returns
    and [item_values] what [tree.item(item).get("values")] gives for it, the
    values as strings; [None] is the url of a row with fewer than three
    values. *)
Definition on_item_double_click (selection : list string)
    (item_values : list string → result (list string))
    : list click_event * result unit :=
  match selection with
  | [] => ([], Ok tt)
  | _ =>
      match item_values selection with
      | Raise e => ([], Raise e)
      | Ok values =>
          let url := if decide (3 ≤ length values) then values !! 2 else None in
          let url :=
            match url with
            | Some u => if Str.truthy u then Ok u else index values 0
            | None => index values 0
            end in
          match url with
          | Raise e => ([], Raise e)
          | Ok u =>
              if Str.truthy u then ([OpenBrowser u], Ok tt)
              else ([ShowInfo "No URL" "Can't find URL to open for this item."],
                    Ok tt)
          end
      end
  end.

(** The requests and the sleeps of a trace, in order: [Some u] for a
    request of [u], [None] for a sleep. *)
Definition pace (t : list event) : list (option string) :=
  omap (λ e, match e with
             | Get u => Some (Some u)
             | Sleep => Some None
             | _ => None
             end) t.

(** The progress shown: index, total and site of every progress status. *)
Definition progress (t : list event) : list (nat * nat * string) :=
  omap (λ e, match e with
             | SetStatus (StatusProgress idx total site) => Some (idx, total, site)
             | _ => None
             end) t.

(** The progress statuses of a run over [sites], numbered from [idx]. *)
Definition numbered (urlparse_scheme : string → result string)
    (n idx : nat) (sites : list string) : list (nat * nat * string) :=
  imap (λ i site, (idx + i, n, site_url urlparse_scheme site)) sites.

(** The requests of the sites, each followed by its sleep. *)
Definition paced_requests (urlparse_scheme : string → result string)
    (sites : list string) : list (option string) :=
  flat_map (λ site, [Some (site_url urlparse_scheme site); None]) sites.

(** The states given to the refresh button. *)
Definition button_states (t : list event) : list string :=
  omap (λ e, match e with RefreshButton state => Some state | _ => None end) t.

(** ** The deduplication loop *)

Section Dedup.

Implicit Types (l ms deduped : list Candidate) (seen : gset (string * string)).

Global Instance key_inj : Inj (=) (=) key.
Proof. intros [t1 u1] [t2 u2]; unfold key; simpl; congruence. Qed.

Lemma dedup_first_subseteq l : dedup_first l ⊆ l.
Proof.
  induction l as [|m l IH]; [done|]. simpl.
  intros x [->|Hx]%elem_of_cons; [left|right].
  apply list_elem_of_filter in Hx as [_ Hx]. by apply IH.
Qed.

Lemma dedup_first_elem l x : x ∈ dedup_first l ↔ x ∈ l.
Proof.
  split; [apply dedup_first_subseteq|].
  induction l as [|m l IH]; [done|]. simpl.
  intros [->|Hx]%elem_of_cons; [left|].
  destruct (decide (x = m)) as [->|Hne]; [left|right].
  apply list_elem_of_filter. split; [|by apply IH].
  intros Hk. by apply Hne, (inj key).
Qed.

Lemma dedup_first_NoDup l : NoDup (key <$> dedup_first l).
Proof.
  apply NoDup_fmap_2; [apply _|].
  induction l as [|m l IH]; simpl; [constructor|].
  apply NoDup_cons. split; [|by apply NoDup_filter].
  intros [Hk _]%list_elem_of_filter. by apply Hk.
Qed.

Lemma dedup_first_sublist l : dedup_first l `sublist_of` l.
Proof.
  induction l as [|m l IH]; simpl; [done|].
  apply sublist_skip. etrans; [apply sublist_filter|done].
Qed.

(** Read from left to right, deduplication keeps an element exactly when
    its key has not occurred before it. *)
Lemma dedup_first_snoc l x :
  dedup_first (l ++ [x]) =
    if decide (key x ∈ key <$> l) then dedup_first l else dedup_first l ++ [x].
Proof.
  induction l as [|m l IH]; cbn [dedup_first app fmap list_fmap].
  - rewrite decide_False; [done|]. apply not_elem_of_nil.
  - rewrite IH. destruct (decide (key x ∈ key <$> l)) as [Hin|Hin].
    + rewrite decide_True; [done|]. by right.
    + rewrite filter_app. destruct (decide (key x = key m)) as [Heq|Hne].
      * rewrite decide_True by (rewrite Heq; left).
        rewrite filter_cons_False by (intros ?; done).
        by rewrite filter_nil, app_nil_r.
      * rewrite decide_False.
        -- by rewrite filter_cons_True by done.
        -- by intros [?|?]%elem_of_cons.
Qed.

Lemma dedup_first_length l : length (dedup_first l) ≤ length l.
Proof.
  induction l as [|m l IH]; simpl; [lia|].
  pose proof (length_filter (λ x, key x ≠ key m) (dedup_first l)). lia.
Qed.

(** Filtering by a property of the key commutes with deduplication. *)
Lemma dedup_first_filter (P : Candidate → Prop) `{!∀ x, Decision (P x)} l :
  (∀ x y, key x = key y → P x → P y) →
  filter P (dedup_first l) = dedup_first (filter P l).
Proof.
  intros HP. induction l as [|m l IH]; [done|]. simpl.
  destruct (decide (P m)) as [Hm|Hm].
  - rewrite !filter_cons_True by done. simpl. f_equal.
    rewrite <-IH, !list_filter_filter. apply list_filter_iff. tauto.
  - rewrite !filter_cons_False by done. rewrite <-IH.
    apply list_filter_filter_l. intros x Hx Hk. apply Hm. by apply (HP x).
Qed.

(** The loop, started anywhere below the limit, completes the list it has
    with the candidates whose key it has not seen, and stops at the
    limit. *)
Lemma dedup_loop_spec ms seen deduped :
  length deduped < MAX_LINKS_PER_SITE →
  dedup_loop ms seen deduped =
    take MAX_LINKS_PER_SITE
         (deduped ++ dedup_first (filter (λ m, key m ∉ seen) ms)).
Proof.
  revert seen deduped. induction ms as [|m ms IH]; intros seen deduped Hlen.
  - simpl. rewrite app_nil_r, take_ge; [done|lia].
  - cbn [dedup_loop]. destruct (decide (key m ∈ seen)) as [Hin|Hin].
    + rewrite decide_False by lia.
      rewrite filter_cons_False by (intros ?; done). by apply IH.
    + rewrite filter_cons_True by done. cbn [dedup_first].
      destruct (decide (MAX_LINKS_PER_SITE ≤ length (deduped ++ [m]))) as [Hmax|Hmax].
      * rewrite length_app in Hmax. simpl in Hmax.
        set (rest := filter _ (dedup_first _)).
        replace (deduped ++ m :: rest) with ((deduped ++ [m]) ++ rest)
          by (by rewrite <-(assoc_L (++))).
        rewrite take_app_length'; [done|]. rewrite length_app. simpl. lia.
      * rewrite IH by lia. rewrite <-(assoc_L (++)). simpl. do 3 f_equal.
        rewrite dedup_first_filter by congruence.
        rewrite list_filter_filter. f_equal.
        apply list_filter_iff. intros x.
        rewrite not_elem_of_union, not_elem_of_singleton. tauto.
Qed.

Lemma dedup_loop_truncate ms :
  dedup_loop ms ∅ [] = dedup_then_truncate MAX_LINKS_PER_SITE ms.
Proof.
  rewrite dedup_loop_spec by (simpl; unfold MAX_LINKS_PER_SITE; lia).
  unfold dedup_then_truncate. simpl. do 2 f_equal.
  induction ms as [|m ms IH]; [done|].
  rewrite filter_cons_True by apply not_elem_of_empty. by rewrite IH.
Qed.

End Dedup.

(** ** Results *)

Section Results.

Context {A B : Type}.
Implicit Types (f : A → result B) (l : list A).

Lemma rbind_Ok {C D : Type} (r : result C) (k : C → result D) d :
  rbind r k = Ok d ↔ ∃ c, r = Ok c ∧ k c = Ok d.
Proof.
  destruct r as [c|e]; simpl; split.
  - eauto.
  - by intros (c' & [= ->] & ?).
  - done.
  - by intros (c' & ? & ?).
Qed.

Lemma rmapM_Ok f l ys :
  rmapM f l = Ok ys ↔ Forall2 (λ x y, f x = Ok y) l ys.
Proof.
  revert ys. induction l as [|x l IH]; intros ys; simpl.
  - split; [intros [= <-]; constructor|by intros ->%Forall2_nil_inv_l].
  - rewrite rbind_Ok. split.
    + intros (y & Hy & (ys' & Hys & [= <-])%rbind_Ok).
      constructor; [done|by apply IH].
    + intros (y & ys' & Hy & Hys & ->)%Forall2_cons_inv_l.
      exists y. split; [done|]. apply rbind_Ok. exists ys'.
      split; [by apply IH|done].
Qed.

Lemma rmapM_length f l ys : rmapM f l = Ok ys → length ys = length l.
Proof. intros H%rmapM_Ok. symmetry. by eapply Forall2_length. Qed.

Lemma rmapM_elem f l ys x :
  rmapM f l = Ok ys → x ∈ l → ∃ y, f x = Ok y ∧ y ∈ ys.
Proof.
  intros H%rmapM_Ok Hx.
  apply list_elem_of_lookup in Hx as [i Hi].
  destruct (Forall2_lookup_l _ _ _ _ _ H Hi) as (y & Hy & Hf).
  exists y. split; [done|]. by eapply list_elem_of_lookup_2.
Qed.

End Results.

(** ** The tree and the anchors found in it *)

Lemma elem_of_flat_map {A B : Type} (f : A → list B) (l : list A) (y : B) :
  y ∈ flat_map f l ↔ ∃ x, x ∈ l ∧ y ∈ f x.
Proof.
  rewrite list_elem_of_In, in_flat_map.
  split; intros (x & Hx & Hy); exists x; by rewrite ?list_elem_of_In in *.
Qed.

Lemma find_all_from_filter parent n a p :
  (a, p) ∈ find_all_from parent n → is_a_with_href a = true.
Proof.
  revert parent. induction n as [s|s|name attrs contents IH] using Node_nested_ind;
    intros parent; simpl; [by intros ?%elem_of_nil..|].
  intros [Hself|Hbelow]%elem_of_app.
  - destruct (bool_decide (name = "a") && _) eqn:Hf; [|by apply elem_of_nil in Hself].
    apply list_elem_of_singleton in Hself as [= -> ->]. done.
  - apply elem_of_flat_map in Hbelow as (x & Hx & Hin).
    rewrite Forall_forall in IH. by eapply IH.
Qed.

Lemma find_all_a_filter soup a p :
  (a, p) ∈ find_all_a soup → is_a_with_href a = true.
Proof.
  destruct soup as [s|s|name attrs contents]; simpl; [by intros ?%elem_of_nil..|].
  intros (x & Hx & Hin)%elem_of_flat_map. by eapply find_all_from_filter.
Qed.

(** An element [find_all] returns has an href, so [a["href"]] returns. *)
Lemma getitem_href a : is_a_with_href a = true → getitem a "href" = Ok (href_of a).
Proof.
  destruct a as [s|s|name attrs contents]; simpl; [done..|].
  intros [_ Hsome%bool_decide_eq_true]%andb_true_iff.
  by destruct Hsome as [v ->].
Qed.

Section Collect.

Variable BeautifulSoup : string → result Node.
Variable urljoin : string → string → result string.
Variable unescape : string → string.

(** The first loop appends, in order, the candidate of every matched
    anchor, and nothing else. *)
Lemma collect_spec base_url anchors matches :
  Forall (λ ap, is_a_with_href ap.1 = true) anchors →
  collect urljoin unescape base_url anchors matches =
    rmap (app matches)
         (rmapM (candidate urljoin unescape base_url) (filter (λ ap, matched ap = true) anchors)).
Proof.
  intros Hall. revert matches.
  induction Hall as [|[a p] anchors Ha Hall IH]; intros matches.
  - simpl. by rewrite app_nil_r.
  - cbn [collect]. simpl in Ha. rewrite (getitem_href a Ha). cbn [rbind].
    rewrite filter_cons.
    assert (matched (a, p) = rule_a a (href_of a) || rule_b p) as Hm by done.
    destruct (decide (matched (a, p) = true)) as [Hyes|Hno]; rewrite Hm in *.
    + assert ((if rule_a a (href_of a)
               then m <-! candidate_of urljoin unescape base_url a (href_of a) ;;
                    collect urljoin unescape base_url anchors (matches ++ [m])
               else if rule_b p
               then m <-! candidate_of urljoin unescape base_url a (href_of a) ;;
                    collect urljoin unescape base_url anchors (matches ++ [m])
               else collect urljoin unescape base_url anchors matches)
              = (m <-! candidate urljoin unescape base_url (a, p) ;;
                 collect urljoin unescape base_url anchors (matches ++ [m])))
        as -> by (by destruct (rule_a a (href_of a)), (rule_b p)).
      cbn [rmapM]. destruct (candidate urljoin unescape base_url (a, p)) as [m|e]; cbn [rbind]; [|done].
      rewrite IH. unfold rmap.
      destruct (rmapM _ _) as [ms|e]; cbn [rbind]; [|done].
      by rewrite <-(assoc_L (++)).
    + by destruct (rule_a a (href_of a)), (rule_b p).
Qed.

Lemma raw_matches_spec html_text base_url :
  raw_matches BeautifulSoup urljoin unescape html_text base_url =
    (soup <-! BeautifulSoup html_text ;;
     rmapM (candidate urljoin unescape base_url)
           (filter (λ ap, matched ap = true) (find_all_a soup))).
Proof.
  unfold raw_matches. destruct (BeautifulSoup html_text) as [soup|e]; [|done].
  cbn [rbind]. rewrite collect_spec.
  - unfold rmap. by destruct (rmapM _ _).
  - apply Forall_forall. intros [a p] Hin. by eapply find_all_a_filter.
Qed.

End Collect.

(** ** Strings: what the keyword test decides *)

Section Strings.

Implicit Types (s t p sub kw : string) (c : ascii).

Lemma append_cons c s t : String c s +:+ t = String c (s +:+ t).
Proof. reflexivity. Qed.

Lemma append_nil_l t : "" +:+ t = t.
Proof. reflexivity. Qed.

Lemma startswith_iff p s :
  Str.startswith p s = true ↔ ∃ post, s = p +:+ post.
Proof.
  revert s. induction p as [|a p IH]; intros s; simpl.
  - split; [by exists s|done].
  - destruct s as [|b s].
    + split; [done|]. by intros [post Hpost].
    + destruct (Ascii.eqb a b) eqn:Hab.
      * apply Ascii.eqb_eq in Hab as ->. rewrite IH.
        split; intros [post Hpost]; exists post.
        -- by rewrite append_cons, <-Hpost.
        -- rewrite append_cons in Hpost. congruence.
      * split; [done|]. intros [post Hpost]. rewrite append_cons in Hpost.
        apply Ascii.eqb_neq in Hab. congruence.
Qed.

Lemma contains_iff sub s :
  Str.contains sub s = true ↔ ∃ pre post, s = pre +:+ sub +:+ post.
Proof.
  induction s as [|c s IH].
  - cbn [Str.contains]. rewrite orb_false_r, startswith_iff. split.
    + intros [post Hpost]. by exists "", post.
    + intros (pre & post & Hs). exists post.
      destruct pre; [done|by rewrite append_cons in Hs].
  - cbn [Str.contains]. rewrite orb_true_iff, startswith_iff, IH. split.
    + intros [[post Hpost]|(pre & post & Hs)].
      * by exists "", post.
      * exists (String c pre), post. by rewrite append_cons, <-Hs.
    + intros (pre & post & Hs). destruct pre as [|c' pre].
      * left. by exists post.
      * right. exists pre, post. rewrite append_cons in Hs. congruence.
Qed.

Lemma lower_app s t : Str.lower (s +:+ t) = Str.lower s +:+ Str.lower t.
Proof.
  induction s as [|c s IH]; [done|].
  rewrite append_cons. simpl. by rewrite IH, append_cons.
Qed.

Lemma lower_split s p t :
  Str.lower s = p +:+ t →
  ∃ p' t', s = p' +:+ t' ∧ Str.lower p' = p ∧ Str.lower t' = t.
Proof.
  revert s. induction p as [|c p IH]; intros s Hs.
  - by exists "", s.
  - destruct s as [|d s]; [done|]. rewrite append_cons in Hs. simpl in Hs.
    injection Hs as Hc Hs. destruct (IH _ Hs) as (p' & t' & -> & Hp & Ht).
    exists (String d p'), t'. rewrite append_cons. simpl. by rewrite Hc, Hp.
Qed.

(** The test of the extractor, [kw in s.lower()] for a keyword in lower
    case, decides the occurrence of the keyword in any case. *)
Lemma contains_lower_iff kw s :
  Str.contains (Str.lower kw) (Str.lower s) = true ↔ occurs_ignoring_case kw s.
Proof.
  rewrite contains_iff. split.
  - intros (pre & post & Hs).
    apply lower_split in Hs as (pre' & rest & -> & _ & Hrest).
    apply lower_split in Hrest as (mid & post' & -> & Hmid & _).
    by exists pre', mid, post'.
  - intros (pre & mid & post & -> & Hmid).
    exists (Str.lower pre), (Str.lower post). by rewrite !lower_app, Hmid.
Qed.

Lemma or_else_empty s : Str.or_else s "" = s.
Proof. by destruct s. Qed.

Lemma rule_a_iff a href :
  rule_a a href = true ↔
  occurs_ignoring_case "php" (get_text a) ∨ occurs_ignoring_case "php" href.
Proof.
  unfold rule_a. rewrite or_else_empty, orb_true_iff.
  by rewrite <- !contains_lower_iff.
Qed.

Lemma rule_b_iff parent :
  rule_b parent = true ↔ occurs_ignoring_case "php" (get_text parent).
Proof. unfold rule_b. by rewrite <-contains_lower_iff. Qed.

(** Nothing occurs in the empty string but the empty keyword. *)
Lemma rule_a_empty a : get_text a = "" → rule_a a "" = false.
Proof. intros Ha. unfold rule_a. by rewrite Ha. Qed.

End Strings.

(** ** The extractor *)

Section ExtractorProperties.

Variable BeautifulSoup : string → result Node.
Variable urljoin : string → string → result string.
Variable unescape : string → string.

Abbreviation extract := (find_php_links_on_html BeautifulSoup urljoin unescape).
Abbreviation matches_of := (raw_matches BeautifulSoup urljoin unescape).

Lemma extract_spec html_text base_url :
  extract html_text base_url =
    rmap (dedup_then_truncate MAX_LINKS_PER_SITE) (matches_of html_text base_url).
Proof.
  unfold find_php_links_on_html, rmap.
  destruct (matches_of html_text base_url) as [ms|e]; [|done].
  cbn [rbind]. by rewrite dedup_loop_truncate.
Qed.

Lemma extract_Ok html_text base_url links :
  extract html_text base_url = Ok links ↔
  ∃ ms, matches_of html_text base_url = Ok ms ∧
        links = take MAX_LINKS_PER_SITE (dedup_first ms).
Proof.
  rewrite extract_spec. unfold rmap. rewrite rbind_Ok.
  unfold dedup_then_truncate.
  split; intros (ms & Hms & Hl); exists ms; (split; [done|congruence]).
Qed.

(** The candidate of a matched anchor is in the list of matches, hence in
    the deduplicated list, and in the output when nothing is cut off. *)
Lemma matched_anchor_listed html_text base_url soup a p links :
  BeautifulSoup html_text = Ok soup →
  (a, p) ∈ find_all_a soup →
  matched (a, p) = true →
  extract html_text base_url = Ok links →
  ∃ c ms,
    candidate urljoin unescape base_url (a, p) = Ok c ∧
    matches_of html_text base_url = Ok ms ∧
    c ∈ ms ∧ c ∈ dedup_first ms ∧
    links = take MAX_LINKS_PER_SITE (dedup_first ms) ∧
    (length (dedup_first ms) ≤ MAX_LINKS_PER_SITE → c ∈ links).
Proof.
  intros Hsoup Hin Hm (ms & Hms & ->)%extract_Ok.
  pose proof Hms as Hraw. rewrite raw_matches_spec, Hsoup in Hraw. cbn [rbind] in Hraw.
  assert ((a, p) ∈ filter (λ ap, matched ap = true) (find_all_a soup)) as Hf
    by by apply list_elem_of_filter.
  destruct (rmapM_elem _ _ _ _ Hraw Hf) as (c & Hc & Hcms).
  exists c, ms. split_and!; try done.
  - by apply dedup_first_elem.
  - intros Hlen. rewrite take_ge by done. by apply dedup_first_elem.
Qed.

(** C5. For every page the output of the extractor is the list of matches
    deduplicated on the pair (url, title), first occurrences kept in order,
    then truncated to 200 entries; it has no two entries with the same pair
    and at most 200 entries. *)
Theorem output_is_dedup_then_truncate html_text base_url :
  extract html_text base_url =
    rmap (dedup_then_truncate MAX_LINKS_PER_SITE) (matches_of html_text base_url)
  ∧ ∀ links, extract html_text base_url = Ok links →
      NoDup (key <$> links) ∧ length links ≤ 200.
Proof.
  split; [apply extract_spec|].
  intros links (ms & _ & ->)%extract_Ok. split.
  - rewrite fmap_take.
    eapply sublist_NoDup; [apply dedup_first_NoDup|apply sublist_take].
  - rewrite length_take. unfold MAX_LINKS_PER_SITE. lia.
Qed.

(** C9. Rules A and B exclude each other on an anchor: the list of matches
    holds, in the order of the traversal, one candidate for every anchor that
    rule A or rule B matches and none for the others; an anchor that both
    rules match adds one entry. *)
Theorem one_entry_per_matched_anchor html_text base_url :
  matches_of html_text base_url =
    (soup <-! BeautifulSoup html_text ;;
     rmapM (candidate urljoin unescape base_url)
           (filter (λ ap, matched ap = true) (find_all_a soup)))
  ∧ (∀ soup ms,
       BeautifulSoup html_text = Ok soup →
       matches_of html_text base_url = Ok ms →
       Forall2 (λ ap m, candidate urljoin unescape base_url ap = Ok m)
               (filter (λ ap, matched ap = true) (find_all_a soup)) ms
       ∧ length ms ≤ length (find_all_a soup))
  ∧ (∀ a p c ms,
       is_a_with_href a = true →
       rule_a a (href_of a) = true → rule_b p = true →
       candidate urljoin unescape base_url (a, p) = Ok c →
       collect urljoin unescape base_url [(a, p)] ms = Ok (ms ++ [c])).
Proof.
  split_and!.
  - apply raw_matches_spec.
  - intros soup ms Hsoup Hms. rewrite raw_matches_spec, Hsoup in Hms.
    cbn [rbind] in Hms. split; [by apply rmapM_Ok|].
    rewrite (rmapM_length _ _ _ Hms). apply length_filter.
  - intros a p c ms Ha Hra Hrb Hc. cbn [collect].
    rewrite (getitem_href a Ha). cbn [rbind]. rewrite Hra.
    unfold candidate in Hc. cbn [fst] in Hc. by rewrite Hc.
Qed.

(** C3, amended. An anchor with an href whose text or href holds the keyword
    in any case has its candidate in the deduplicated list of matches,
    whatever else the page holds, when the extraction returns; it is in the
    output when that list has at most 200 entries, of which the output keeps
    the first 200. *)
Theorem keyword_anchor_listed html_text base_url soup a p links :
  BeautifulSoup html_text = Ok soup →
  (a, p) ∈ find_all_a soup →
  occurs_ignoring_case "php" (get_text a)
    ∨ occurs_ignoring_case "php" (href_of a) →
  extract html_text base_url = Ok links →
  ∃ c ms,
    candidate urljoin unescape base_url (a, p) = Ok c ∧
    matches_of html_text base_url = Ok ms ∧
    c ∈ dedup_first ms ∧
    links = take MAX_LINKS_PER_SITE (dedup_first ms) ∧
    (length (dedup_first ms) ≤ MAX_LINKS_PER_SITE → c ∈ links).
Proof.
  intros Hsoup Hin Hkw Hex.
  assert (matched (a, p) = true) as Hm.
  { unfold matched. cbn [fst snd]. apply orb_true_iff. left. by apply rule_a_iff. }
  destruct (matched_anchor_listed _ _ _ _ _ _ Hsoup Hin Hm Hex)
    as (c & ms & ? & ? & ? & ? & ? & ?).
  by exists c, ms.
Qed.

(** C4, amended. A matched anchor with empty text and an empty href is
    matched through rule B; when the extraction returns, its candidate is in
    the list of matches, and in the output when the deduplicated list has at
    most 200 entries.  The candidate has the empty title and the base URL as
    its url, so title and url differ for a base URL that is not empty; the
    row the runner adds shows the url as its title. *)
Theorem empty_anchor_candidate html_text base_url soup a p links :
  unescape "" = "" →
  urljoin base_url "" = Ok base_url →
  BeautifulSoup html_text = Ok soup →
  (a, p) ∈ find_all_a soup →
  get_text a = "" → href_of a = "" →
  matched (a, p) = true →
  extract html_text base_url = Ok links →
  let c := mkCandidate "" base_url in
  rule_a a (href_of a) = false ∧ rule_b p = true ∧
  candidate urljoin unescape base_url (a, p) = Ok c ∧
  (∃ ms, matches_of html_text base_url = Ok ms ∧ c ∈ ms ∧
         (length (dedup_first ms) ≤ MAX_LINKS_PER_SITE → c ∈ links)) ∧
  (title c = url c ↔ base_url = "") ∧
  Str.or_else (title c) (url c) = url c.
Proof.
  intros Hun Hjoin Hsoup Hin Htext Hhref Hm Hex c.
  assert (rule_a a (href_of a) = false) as Hra
    by (rewrite Hhref; by apply rule_a_empty).
  assert (candidate urljoin unescape base_url (a, p) = Ok c) as Hc.
  { unfold candidate, candidate_of. cbn [fst].
    rewrite Hhref, Htext, Hjoin. cbn. by rewrite Hun. }
  split_and!; try done.
  - unfold matched in Hm. cbn [fst snd] in Hm. by rewrite Hra in Hm.
  - destruct (matched_anchor_listed _ _ _ _ _ _ Hsoup Hin Hm Hex)
      as (c' & ms & Hc' & Hms & Hcms & _ & _ & Hout).
    rewrite Hc in Hc'. injection Hc' as <-. by exists ms.
Qed.

End ExtractorProperties.

(** ** The extractor on the example pages *)

Lemma urljoin_empty_reference base : Urllib.urljoin base "" = Ok base.
Proof. unfold Urllib.urljoin. by destruct base. Qed.

Lemma soup_of_Ok html_text : Bs4.BeautifulSoup html_text = Ok (soup_of html_text).
Proof. reflexivity. Qed.

(** C1, as stated, fails: the page of the example yields more than the one
    candidate, the second anchor among them. *)
Lemma two_jobs_not_one :
  ∃ links,
    py_find_php_links_on_html two_jobs_html jobs_test = Ok links ∧
    links ≠ [senior_php] ∧ length links = 2 ∧ designer ∈ links.
Proof.
  exists [senior_php; designer]. split_and!.
  - vm_compute. reflexivity.
  - discriminate.
  - reflexivity.
  - apply (bool_decide_unpack _). vm_compute. exact I.
Qed.

(** C1, amended. On the page of the example, with base https://jobs.test,
    the extractor returns two candidates: Senior PHP Developer at
    https://jobs.test/job/1 through rule A, and Designer at
    https://jobs.test/job/2 through rule B, since the parent of both anchors
    is the root of the document, whose text holds the keyword. *)
Theorem two_jobs_example :
  py_find_php_links_on_html two_jobs_html jobs_test = Ok [senior_php; designer]
  ∧ (λ ap, (get_text ap.1, rule_a ap.1 (href_of ap.1), get_text ap.2, rule_b ap.2))
      <$> find_all_a (soup_of two_jobs_html)
    = [("Senior PHP Developer", true, "Senior PHP Developer Designer", true);
       ("Designer", false, "Senior PHP Developer Designer", true)].
Proof. split; vm_compute; reflexivity. Qed.

Lemma default_last_elem {A : Type} (d : A) (l : list A) :
  l ≠ [] → default d (last l) ∈ l.
Proof.
  intros Hne. destruct (last l) as [x|] eqn:Hlast; simpl.
  - by eapply last_Some_elem_of.
  - by apply last_None in Hlast.
Qed.

(** C3, as stated, fails: the last of 201 anchors with the keyword in their
    href has no candidate in the output, which stops at 200 entries; and
    beside an anchor whose href [urljoin] rejects, an anchor with the keyword
    has no candidate either, for there is no output. *)
Lemma keyword_anchor_cut_off :
  (last_anchor (php_page 201) ∈ find_all_a (soup_of (php_page 201)) ∧
   occurs_ignoring_case "php" (href_of (last_anchor (php_page 201)).1) ∧
   candidate Urllib.urljoin Html.unescape jobs_test (last_anchor (php_page 201))
     = Ok (mkCandidate "job" "https://jobs.test/php/201") ∧
   ∃ links,
     py_find_php_links_on_html (php_page 201) jobs_test = Ok links ∧
     length links = 200 ∧
     mkCandidate "job" "https://jobs.test/php/201" ∉ links) ∧
  (first_anchor bad_neighbour_html ∈ find_all_a (soup_of bad_neighbour_html) ∧
   occurs_ignoring_case "php" (href_of (first_anchor bad_neighbour_html).1) ∧
   py_find_php_links_on_html bad_neighbour_html jobs_test
     = Raise (ValueError "Invalid IPv6 URL")).
Proof.
  split; split_and!.
  - apply default_last_elem. intros Hnil.
    apply (f_equal length) in Hnil. vm_compute in Hnil. discriminate.
  - apply (contains_lower_iff "php"). vm_compute. reflexivity.
  - vm_compute. reflexivity.
  - exists (links_of (php_page 201) jobs_test). split_and!.
    + vm_compute. reflexivity.
    + vm_compute. reflexivity.
    + apply (bool_decide_unpack _). vm_compute. exact I.
  - apply list_elem_of_lookup. exists 0. vm_compute. reflexivity.
  - apply (contains_lower_iff "php"). vm_compute. reflexivity.
  - vm_compute. reflexivity.
Qed.

(** C4, as stated, fails: the candidate of a matched anchor with empty text
    and an empty href has the empty title and the base URL as its url. *)
Lemma empty_anchor_title_differs :
  (λ ap, (get_text ap.1, href_of ap.1, matched ap))
      <$> find_all_a (soup_of empty_anchor_html) = [("", "", true)] ∧
  py_find_php_links_on_html empty_anchor_html jobs_test
    = Ok [mkCandidate "" "https://jobs.test"] ∧
  title (mkCandidate "" "https://jobs.test") ≠ url (mkCandidate "" "https://jobs.test").
Proof. split_and!; [vm_compute; reflexivity..|discriminate]. Qed.

(** The output on the page of two jobs has no duplicate and two entries. *)
Lemma output_is_dedup_then_truncate_witness :
  NoDup (key <$> [senior_php; designer]) ∧ length [senior_php; designer] ≤ 200.
Proof.
  apply (output_is_dedup_then_truncate Bs4.BeautifulSoup Urllib.urljoin
           Html.unescape two_jobs_html jobs_test).
  vm_compute. reflexivity.
Defined.

(** The two anchors of the page of two jobs give one candidate each. *)
Lemma one_entry_per_matched_anchor_witness :
  Forall2 (λ ap m, candidate Urllib.urljoin Html.unescape jobs_test ap = Ok m)
          (filter (λ ap, matched ap = true) (find_all_a (soup_of two_jobs_html)))
          [senior_php; designer]
  ∧ length [senior_php; designer] ≤ length (find_all_a (soup_of two_jobs_html)).
Proof.
  apply (one_entry_per_matched_anchor Bs4.BeautifulSoup Urllib.urljoin
           Html.unescape two_jobs_html jobs_test).
  - reflexivity.
  - vm_compute. reflexivity.
Defined.

(** The first anchor of the page of two jobs holds the keyword in its text. *)
Lemma keyword_anchor_listed_witness :
  ∃ c ms,
    candidate Urllib.urljoin Html.unescape jobs_test
      ((first_anchor two_jobs_html).1, (first_anchor two_jobs_html).2) = Ok c ∧
    raw_matches Bs4.BeautifulSoup Urllib.urljoin Html.unescape
      two_jobs_html jobs_test = Ok ms ∧
    c ∈ dedup_first ms ∧
    [senior_php; designer] = take MAX_LINKS_PER_SITE (dedup_first ms) ∧
    (length (dedup_first ms) ≤ MAX_LINKS_PER_SITE → c ∈ [senior_php; designer]).
Proof.
  apply (keyword_anchor_listed Bs4.BeautifulSoup Urllib.urljoin Html.unescape
           two_jobs_html jobs_test (soup_of two_jobs_html)).
  - reflexivity.
  - apply list_elem_of_lookup. exists 0. vm_compute. reflexivity.
  - left. apply (contains_lower_iff "php"). vm_compute. reflexivity.
  - vm_compute. reflexivity.
Defined.

(** The empty anchor in its paragraph, under the models of the libraries. *)
Lemma empty_anchor_candidate_witness :
  let c := mkCandidate "" jobs_test in
  rule_a (first_anchor empty_anchor_html).1
         (href_of (first_anchor empty_anchor_html).1) = false ∧
  rule_b (first_anchor empty_anchor_html).2 = true ∧
  candidate Urllib.urljoin Html.unescape jobs_test
    ((first_anchor empty_anchor_html).1, (first_anchor empty_anchor_html).2) = Ok c ∧
  (∃ ms, raw_matches Bs4.BeautifulSoup Urllib.urljoin Html.unescape
           empty_anchor_html jobs_test = Ok ms ∧ c ∈ ms ∧
         (length (dedup_first ms) ≤ MAX_LINKS_PER_SITE → c ∈ [c])) ∧
  (title c = url c ↔ jobs_test = "") ∧
  Str.or_else (title c) (url c) = url c.
Proof.
  apply (empty_anchor_candidate Bs4.BeautifulSoup Urllib.urljoin Html.unescape
           empty_anchor_html jobs_test (soup_of empty_anchor_html)).
  - reflexivity.
  - apply urljoin_empty_reference.
  - reflexivity.
  - apply list_elem_of_lookup. exists 0. vm_compute. reflexivity.
  - vm_compute. reflexivity.
  - vm_compute. reflexivity.
  - vm_compute. reflexivity.
  - vm_compute. reflexivity.
Defined.

(** ** The runner *)

Section Traces.

Context {A B : Type}.

Lemma bind_Ok (t : list event) (a : A) (k : A → M B) :
  bind (t, Ok a) k = (t ++ (k a).1, (k a).2).
Proof. unfold bind. by destruct (k a). Qed.

Lemma bind_Raise (t : list event) (e : exn) (k : A → M B) :
  bind (t, Raise e) k = (t, Raise e).
Proof. done. Qed.

Lemma fetched_urls_app t1 t2 :
  fetched_urls (t1 ++ t2) = fetched_urls t1 ++ fetched_urls t2.
Proof. apply omap_app. Qed.

Lemma rows_app t1 t2 : rows (t1 ++ t2) = rows t1 ++ rows t2.
Proof. apply omap_app. Qed.

Lemma final_counts_app t1 t2 :
  final_counts (t1 ++ t2) = final_counts t1 ++ final_counts t2.
Proof. apply omap_app. Qed.

Lemma fetched_urls_rows u links : fetched_urls (row_event u <$> links) = [].
Proof. by induction links. Qed.

Lemma final_counts_rows u links : final_counts (row_event u <$> links) = [].
Proof. by induction links. Qed.

Lemma rows_rows u links : rows (row_event u <$> links) = row_of u <$> links.
Proof. induction links as [|l links IH]; [done|]. cbn. by f_equal. Qed.

End Traces.

Section RunnerProperties.

Variable BeautifulSoup : string → result Node.
Variable urljoin : string → string → result string.
Variable unescape : string → string.
Variable urlparse_scheme : string → result string.
Variable requests_get : string → reply.

Abbreviation run :=
  (scrape_and_display BeautifulSoup urljoin unescape urlparse_scheme requests_get).
Abbreviation loop :=
  (scrape_loop BeautifulSoup urljoin unescape urlparse_scheme requests_get).
Abbreviation one :=
  (scrape_one BeautifulSoup urljoin unescape urlparse_scheme requests_get).
Abbreviation visit :=
  (scrape_site BeautifulSoup urljoin unescape requests_get).
Abbreviation outcome_of :=
  (site_outcome_of BeautifulSoup urljoin unescape requests_get).
Abbreviation links_at :=
  (site_links BeautifulSoup urljoin unescape urlparse_scheme requests_get).
Abbreviation rows_at :=
  (site_rows BeautifulSoup urljoin unescape urlparse_scheme requests_get).
Abbreviation clean :=
  (site_clean BeautifulSoup urljoin unescape urlparse_scheme requests_get).
Abbreviation url_at := (site_url urlparse_scheme).

(** The four ways the visit of a URL ends. *)
Lemma scrape_site_cases u :
  visit u =
    match outcome_of u with
    | FetchFailure e =>
        ([Print (LogScraping u); Get u; Print (LogFetchError u e)], Ok [])
    | EmptyBody => ([Print (LogScraping u); Get u], Ok [])
    | Links links =>
        ([Print (LogScraping u); Get u; Extract (response_text (requests_get u)) u;
          Print (LogFound (length links) u)], Ok links)
    | Defect text e =>
        ([Print (LogScraping u); Get u; Extract text u], Raise e)
    end.
Proof.
  unfold scrape_site, fetch_page, site_outcome_of.
  destruct (requests_get u) as [e|status text]; [done|].
  destruct (raise_for_status status) as [[]|e]; [|done].
  cbn -[find_php_links_on_html].
  destruct (Str.truthy text); [|done].
  by destruct (find_php_links_on_html _ _ _ text u).
Qed.

Lemma add_results_spec u links total :
  add_results u links total = (row_event u <$> links, Ok (total + length links)).
Proof.
  revert total. induction links as [|l links IH]; intros total; cbn [add_results].
  - unfold ret. by rewrite Nat.add_0_r.
  - unfold emit. rewrite bind_Ok, IH. cbn. do 2 f_equal. lia.
Qed.

(** One iteration of the loop, by the way the visit ends. *)
Lemma scrape_one_cases n idx site total scheme :
  urlparse_scheme site = Ok scheme →
  one n idx site total =
    let u := normalized scheme site in
    let head := [SetStatus (StatusProgress idx n u); Print (LogScraping u); Get u] in
    match outcome_of u with
    | FetchFailure e => (head ++ [Print (LogFetchError u e); Sleep], Ok total)
    | EmptyBody => (head ++ [Sleep], Ok total)
    | Links links =>
        (head ++ [Extract (response_text (requests_get u)) u;
                  Print (LogFound (length links) u)]
              ++ (row_event u <$> links) ++ [Sleep],
         Ok (total + length links))
    | Defect text e => (head ++ [Extract text u], Raise e)
    end.
Proof.
  intros Hs. unfold scrape_one. rewrite Hs. unfold lift. rewrite bind_Ok.
  fold (normalized scheme site). cbn zeta. set (u := normalized scheme site).
  unfold emit at 1. rewrite bind_Ok, scrape_site_cases.
  destruct (outcome_of u) as [e| |links|text e];
    rewrite ?bind_Ok, ?bind_Raise, ?add_results_spec; cbn;
    rewrite ?Nat.add_0_r; done.
Qed.

Lemma scrape_one_raise n idx site total e :
  urlparse_scheme site = Raise e → one n idx site total = ([], Raise e).
Proof. intros Hs. unfold scrape_one. by rewrite Hs. Qed.

Lemma url_at_Ok site scheme :
  urlparse_scheme site = Ok scheme → url_at site = normalized scheme site.
Proof. intros Hs. unfold site_url. by rewrite Hs. Qed.

(** What one iteration leaves in the trace. *)
Lemma scrape_one_summary n idx site total scheme :
  urlparse_scheme site = Ok scheme →
  let r := one n idx site total in
  fetched_urls r.1 = [url_at site] ∧ final_counts r.1 = [] ∧
  match outcome_of (url_at site) with
  | Defect text e =>
      r.2 = Raise e ∧ rows r.1 = [] ∧ last r.1 = Some (Extract text (url_at site))
  | _ => r.2 = Ok (total + length (links_at site)) ∧ rows r.1 = rows_at site
  end.
Proof.
  intros Hs. cbn zeta. rewrite (scrape_one_cases _ _ _ _ _ Hs).
  unfold site_rows, site_links. rewrite (url_at_Ok _ _ Hs). cbn zeta.
  destruct (outcome_of (normalized scheme site)) as [e| |links|text e]; cbn [fst snd].
  - rewrite Nat.add_0_r. by split_and!.
  - rewrite Nat.add_0_r. by split_and!.
  - rewrite !fetched_urls_app, !final_counts_app, !rows_app.
    rewrite fetched_urls_rows, final_counts_rows, rows_rows. cbn.
    rewrite app_nil_r. by split_and!.
  - by split_and!.
Qed.

Lemma raise_for_status_Ok status_code :
  ¬ (400 ≤ status_code < 600) → raise_for_status status_code = Ok tt.
Proof. intros H. unfold raise_for_status. by rewrite decide_False. Qed.

Lemma raise_for_status_Raise status_code :
  400 ≤ status_code < 600 →
  raise_for_status status_code = Raise (HTTPError status_code).
Proof. intros H. unfold raise_for_status. by rewrite decide_True. Qed.

Lemma clean_no_defect site :
  clean site → ∀ text e, outcome_of (url_at site) ≠ Defect text e.
Proof.
  intros [_ Hclean] text e. unfold site_outcome_of.
  destruct (requests_get (url_at site)) as [e'|status text'] eqn:Hget; [done|].
  unfold raise_for_status.
  destruct (decide (400 ≤ status < 600)) as [Herr|Hok]; [done|].
  destruct (Str.truthy text') eqn:Htext; [|done].
  destruct (Hclean status text' eq_refl Hok Htext) as [links ->]. done.
Qed.

Lemma fetch_fails_outcome site :
  fetch_fails urlparse_scheme requests_get site →
  ∃ e, outcome_of (url_at site) = FetchFailure e.
Proof.
  intros [_ Hfail]. unfold site_outcome_of.
  destruct (requests_get (url_at site)) as [e|status text]; [by exists e|].
  rewrite raise_for_status_Raise by done. by eexists.
Qed.

Lemma fetch_fails_clean site :
  fetch_fails urlparse_scheme requests_get site → clean site.
Proof.
  intros [Hs Hfail]. split; [done|]. intros status text Hget Hok.
  rewrite Hget in Hfail. by destruct Hok.
Qed.

Lemma clean_outcome site scheme :
  urlparse_scheme site = Ok scheme → clean site →
  ∀ n idx total,
    let r := one n idx site total in
    r.2 = Ok (total + length (rows_at site)) ∧
    fetched_urls r.1 = [url_at site] ∧ rows r.1 = rows_at site ∧
    final_counts r.1 = [].
Proof.
  intros Hs Hsite n idx total.
  pose proof (clean_no_defect _ Hsite) as Hclean.
  destruct (scrape_one_summary n idx site total scheme Hs) as (Hf & Hc & Hr).
  unfold site_rows at 1. rewrite length_fmap.
  destruct (outcome_of (url_at site)) as [e| |links|text e] eqn:Ho;
    try (destruct Hr as [Hr1 Hr2]; by split_and!).
  by destruct (Hclean text e).
Qed.

(** A run of clean sites: every site is fetched, in order, the rows are
    those of the sites, and the count is their number. *)
Lemma scrape_loop_clean n sites :
  Forall clean sites →
  ∀ idx total,
    let r := loop n idx sites total in
    r.2 = Ok (total + length (flat_map rows_at sites)) ∧
    fetched_urls r.1 = url_at <$> sites ∧
    rows r.1 = flat_map rows_at sites ∧
    final_counts r.1 = [].
Proof.
  induction 1 as [|site sites Hsite Hsites IH]; intros idx total; cbn zeta.
  - cbn. by rewrite Nat.add_0_r.
  - cbn [scrape_loop flat_map fmap list_fmap].
    pose proof Hsite as [[scheme Hs] _].
    destruct (clean_outcome site scheme Hs Hsite n idx total) as (Ho & Hf & Hr & Hc).
    destruct (one n idx site total) as [t1 r1]. cbn [fst snd] in *. subst r1.
    rewrite bind_Ok. cbn [fst snd].
    destruct (IH (idx + 1) (total + length (rows_at site))) as (Ho' & Hf' & Hr' & Hc').
    rewrite fetched_urls_app, rows_app, final_counts_app, Hf, Hr, Hc, Ho', Hf', Hr', Hc'.
    rewrite length_app. split_and!; try done. f_equal. lia.
Qed.

(** Whatever happens, the URLs fetched are those of the first sites of the
    list, each under its normalized URL. *)
Lemma scrape_loop_fetched n sites :
  ∀ idx total,
    let r := loop n idx sites total in
    fetched_urls r.1 `prefix_of` (url_at <$> sites) ∧
    (∀ k, r.2 = Ok k → fetched_urls r.1 = url_at <$> sites).
Proof.
  induction sites as [|site sites IH]; intros idx total; cbn zeta.
  - cbn. split; [done|]. done.
  - cbn [scrape_loop fmap list_fmap].
    destruct (urlparse_scheme site) as [scheme|e] eqn:Hs.
    + destruct (scrape_one_summary n idx site total scheme Hs) as (Hf & _ & Hr).
      destruct (one n idx site total) as [t1 [k1|e1]]; cbn [fst snd] in *.
      * rewrite bind_Ok. cbn [fst snd]. rewrite fetched_urls_app, Hf.
        destruct (IH (idx + 1) k1) as [Hpre Heq]. split.
        -- cbn [app]. by apply prefix_cons.
        -- intros k Hk. cbn [app]. by rewrite (Heq k Hk).
      * rewrite bind_Raise. cbn [fst snd]. rewrite Hf. split; [|done].
        by exists (url_at <$> sites).
    + rewrite (scrape_one_raise _ _ _ _ _ Hs), bind_Raise. cbn. split; [|done].
      apply prefix_nil.
Qed.

(** A run that meets a defect after clean sites stops at the call of the
    extractor for that site. *)
Lemma scrape_loop_defect n pre site post scheme text e :
  Forall clean pre →
  urlparse_scheme site = Ok scheme →
  outcome_of (url_at site) = Defect text e →
  ∀ idx total,
    let r := loop n idx (pre ++ site :: post) total in
    r.2 = Raise e ∧
    fetched_urls r.1 = (url_at <$> pre) ++ [url_at site] ∧
    rows r.1 = flat_map rows_at pre ∧
    final_counts r.1 = [] ∧
    last r.1 = Some (Extract text (url_at site)).
Proof.
  intros Hpre Hs Ho. induction Hpre as [|s pre Hclean Hpre IH]; intros idx total; cbn zeta.
  - cbn [app scrape_loop fmap list_fmap flat_map].
    destruct (scrape_one_summary n idx site total scheme Hs) as (Hf & Hc & Hr).
    rewrite Ho in Hr. destruct Hr as (Hr1 & Hr2 & Hr3).
    destruct (one n idx site total) as [t1 r1]. cbn [fst snd] in *. subst r1.
    by rewrite bind_Raise.
  - cbn [app scrape_loop fmap list_fmap flat_map].
    pose proof Hclean as [[scheme' Hs'] _].
    destruct (clean_outcome s scheme' Hs' Hclean n idx total) as (Ho1 & Hf1 & Hr1 & Hc1).
    destruct (one n idx s total) as [t1 r1]. cbn [fst snd] in *. subst r1.
    rewrite bind_Ok. cbn [fst snd].
    destruct (IH (idx + 1) (total + length (rows_at s))) as (Ho' & Hf' & Hr' & Hc' & Hl').
    rewrite fetched_urls_app, rows_app, final_counts_app, Hf1, Hr1, Hc1, Ho', Hf', Hr', Hc'.
    split_and!; try done.
    destruct ((loop n (idx + 1) (pre ++ site :: post) (total + length (rows_at s))).1)
      as [|x t2] eqn:Ht2; [done|].
    by rewrite last_app, Hl'.
Qed.

(** The run on a list of sites that is not empty. *)
Lemma run_unfold sites_text :
  sites_of sites_text ≠ [] →
  run sites_text =
    let sites := sites_of sites_text in
    let r := loop (length sites) 1 sites 0 in
    let start := [RefreshButton "disabled"; SetStatus StatusScraping; ClearResults] in
    match r.2 with
    | Ok total_count =>
        (start ++ r.1 ++ [SetStatus (StatusDone total_count); RefreshButton "normal"],
         Ok tt)
    | Raise e => (start ++ r.1, Raise e)
    end.
Proof.
  intros Hne. unfold scrape_and_display. cbn zeta.
  destruct (sites_of sites_text) as [|site sites] eqn:Hsites; [done|].
  unfold emit. rewrite !bind_Ok. cbn [fst snd].
  destruct (loop _ 1 (site :: sites) 0) as [t [total|e]]; [|done].
  by rewrite !bind_Ok.
Qed.

(** Past clean sites, the next site whose string parses is fetched. *)
Lemma scrape_loop_reaches n pre site post scheme :
  Forall clean pre →
  urlparse_scheme site = Ok scheme →
  ∀ idx total,
    ((url_at <$> pre) ++ [url_at site])
      `prefix_of` fetched_urls (loop n idx (pre ++ site :: post) total).1.
Proof.
  intros Hpre Hs. induction Hpre as [|s pre Hclean Hpre IH]; intros idx total.
  - cbn [app scrape_loop fmap list_fmap].
    destruct (scrape_one_summary n idx site total scheme Hs) as (Hf & _ & _).
    destruct (one n idx site total) as [t1 [k1|e1]]; cbn [fst snd] in *.
    + rewrite bind_Ok. cbn [fst]. rewrite fetched_urls_app, Hf.
      by apply prefix_app_r.
    + rewrite bind_Raise. cbn [fst]. by rewrite Hf.
  - cbn [app scrape_loop fmap list_fmap].
    pose proof Hclean as [[scheme' Hs'] _].
    destruct (clean_outcome s scheme' Hs' Hclean n idx total) as (Ho1 & Hf1 & _ & _).
    destruct (one n idx s total) as [t1 r1]. cbn [fst snd] in *. subst r1.
    rewrite bind_Ok. cbn [fst]. rewrite fetched_urls_app, Hf1. cbn [app].
    apply prefix_cons, IH.
Qed.

(** The requests of a run are those of its loop. *)
Lemma run_fetched sites_text :
  fetched_urls (trace (run sites_text)) =
    fetched_urls
      (loop (length (sites_of sites_text)) 1 (sites_of sites_text) 0).1.
Proof.
  destruct (sites_of sites_text) as [|site sites] eqn:Hsites.
  - unfold scrape_and_display. cbn zeta. by rewrite Hsites.
  - rewrite run_unfold by by rewrite Hsites. cbn zeta. rewrite Hsites.
    destruct (loop _ 1 (site :: sites) 0) as [t [total|e]];
      unfold trace; cbn [fst snd];
      rewrite ?fetched_urls_app; cbn; by rewrite ?app_nil_r.
Qed.

Lemma run_clean sites_text :
  sites_of sites_text ≠ [] →
  Forall clean (sites_of sites_text) →
  let sites := sites_of sites_text in
  let r := run sites_text in
  outcome r = Ok tt ∧
  fetched_urls (trace r) = url_at <$> sites ∧
  rows (trace r) = flat_map rows_at sites ∧
  final_counts (trace r) = [length (flat_map rows_at sites)].
Proof.
  intros Hne Hclean. cbn zeta. rewrite (run_unfold _ Hne). cbn zeta.
  destruct (scrape_loop_clean (length (sites_of sites_text)) _ Hclean 1 0)
    as (Ho & Hf & Hr & Hc).
  rewrite Ho. unfold outcome, trace. cbn [fst snd].
  rewrite !fetched_urls_app, !rows_app, !final_counts_app, Hf, Hr, Hc.
  cbn. by rewrite !app_nil_r.
Qed.

(** An iteration that returns is that of a clean site. *)
Lemma scrape_one_Ok_clean n idx site total k :
  (one n idx site total).2 = Ok k → clean site.
Proof.
  destruct (urlparse_scheme site) as [scheme|e] eqn:Hs.
  - rewrite (scrape_one_cases _ _ _ _ _ Hs). cbn zeta. intros Hk.
    split; [by exists scheme|]. intros status text Hget Hok Htext.
    rewrite (url_at_Ok _ _ Hs) in *. revert Hk. unfold site_outcome_of.
    rewrite Hget, (raise_for_status_Ok _ Hok), Htext.
    destruct (find_php_links_on_html _ _ _ text _) as [links|e]; [|done].
    by exists links.
  - by rewrite (scrape_one_raise _ _ _ _ _ Hs).
Qed.

Lemma scrape_loop_Ok_clean n sites :
  ∀ idx total k, (loop n idx sites total).2 = Ok k → Forall clean sites.
Proof.
  induction sites as [|site sites IH]; intros idx total k; [by constructor|].
  cbn [scrape_loop].
  destruct (one n idx site total) as [t1 [k1|e1]] eqn:Hone.
  - rewrite bind_Ok. cbn [snd]. intros Hk. constructor.
    + apply (scrape_one_Ok_clean n idx site total k1). by rewrite Hone.
    + by eapply IH.
  - by rewrite bind_Raise.
Qed.

(** The run returns exactly when every site of the list is clean. *)
Lemma run_Ok_iff_clean sites_text :
  outcome (run sites_text) = Ok tt ↔ Forall clean (sites_of sites_text).
Proof.
  destruct (sites_of sites_text) as [|site sites] eqn:Hsites.
  - split; [by constructor|]. intros _.
    unfold scrape_and_display. cbn zeta. by rewrite Hsites.
  - assert (sites_of sites_text ≠ []) as Hne by by rewrite Hsites.
    split.
    + rewrite (run_unfold _ Hne). cbn zeta. rewrite Hsites.
      destruct (loop _ 1 (site :: sites) 0) as [t [total|e]] eqn:Hloop;
        unfold outcome; cbn [fst snd]; [|done].
      intros _. apply (scrape_loop_Ok_clean (length (site :: sites)) _ 1 0 total).
      by rewrite Hloop.
    + intros Hclean. rewrite <-Hsites in Hclean.
      by destruct (run_clean _ Hne Hclean) as (? & _).
Qed.

(** C2, amended. An exception raised while the links of one site are
    extracted is not caught: it leaves [scrape_site] and the run.  After
    sites that raised nothing, the run ends at the call of the extractor for
    that site: the exception is its outcome, no later site is fetched, no
    final count is reported, and the rows are those of the earlier sites. *)
Theorem extraction_defect_ends_run sites_text pre site post scheme status_code text e :
  sites_of sites_text = pre ++ site :: post →
  Forall clean pre →
  urlparse_scheme site = Ok scheme →
  requests_get (normalized scheme site) = Response status_code text →
  ¬ (400 ≤ status_code < 600) →
  Str.truthy text = true →
  find_php_links_on_html BeautifulSoup urljoin unescape text
    (normalized scheme site) = Raise e →
  let r := run sites_text in
  outcome (visit (normalized scheme site)) = Raise e ∧
  outcome r = Raise e ∧
  final_counts (trace r) = [] ∧
  last (trace r) = Some (Extract text (normalized scheme site)) ∧
  fetched_urls (trace r) = (url_at <$> pre) ++ [normalized scheme site] ∧
  rows (trace r) = flat_map rows_at pre.
Proof.
  intros Hsites Hpre Hs Hget Hok Htext Hraise. cbn zeta.
  assert (outcome_of (url_at site) = Defect text e) as Ho.
  { rewrite (url_at_Ok _ _ Hs). unfold site_outcome_of.
    by rewrite Hget, (raise_for_status_Ok _ Hok), Htext, Hraise. }
  split.
  { rewrite scrape_site_cases. rewrite (url_at_Ok _ _ Hs) in Ho. by rewrite Ho. }
  assert (sites_of sites_text ≠ []) as Hne
    by (rewrite Hsites; by destruct pre).
  rewrite (run_unfold _ Hne). cbn zeta. rewrite Hsites.
  destruct (scrape_loop_defect (length (pre ++ site :: post)) pre site post
              scheme text e Hpre Hs Ho 1 0) as (Hr & Hf & Hrows & Hc & Hl).
  rewrite Hr. unfold outcome, trace. cbn [fst snd].
  rewrite fetched_urls_app, rows_app, final_counts_app, Hf, Hrows, Hc.
  rewrite <-(url_at_Ok _ _ Hs). split_and!; try done.
  destruct ((loop (length (pre ++ site :: post)) 1 (pre ++ site :: post) 0).1)
    as [|x t] eqn:Ht; [done|].
  by rewrite last_app, Hl.
Qed.


(** C7. With an empty list of sites the run does nothing but show the
    warning for the missing configuration: it requests no URL, adds no row
    and reports no count. *)
Theorem no_sites_no_fetch sites_text :
  sites_of sites_text = [] →
  let r := run sites_text in
  r = ([ShowWarning "No sites" "Please add at least one site URL to scan."], Ok tt) ∧
  fetched_urls (trace r) = [] ∧ rows (trace r) = [] ∧ final_counts (trace r) = [].
Proof.
  intros Hsites. cbn zeta. unfold scrape_and_display. cbn zeta. by rewrite Hsites.
Qed.

(** C8. A site whose string has no scheme is fetched under https:// followed
    by the string, and a site with a scheme under the string unchanged: the
    URLs the run requests are, in order, these URLs of the sites of the list,
    of all of them when the run completes.  So example.com/php is fetched as
    https://example.com/php. *)
Theorem missing_scheme_gets_https sites_text :
  let sites := sites_of sites_text in
  let r := run sites_text in
  (∀ site, urlparse_scheme site = Ok "" → url_at site = "https://" +:+ site) ∧
  (∀ site scheme, urlparse_scheme site = Ok scheme → scheme ≠ "" → url_at site = site) ∧
  fetched_urls (trace r) `prefix_of` (url_at <$> sites) ∧
  (outcome r = Ok tt → fetched_urls (trace r) = url_at <$> sites) ∧
  site_url Urllib.urlparse_scheme "example.com/php" = "https://example.com/php" ∧
  site_url Urllib.urlparse_scheme "http://example.com/php" = "http://example.com/php".
Proof.
  cbn zeta. split_and!.
  - intros site Hs. by rewrite (url_at_Ok _ _ Hs).
  - intros site scheme Hs Hne. rewrite (url_at_Ok _ _ Hs). by destruct scheme.
  - rewrite run_fetched. apply scrape_loop_fetched.
  - intros Hok. rewrite run_fetched.
    destruct (sites_of sites_text) as [|site sites] eqn:Hsites; [done|].
    destruct (scrape_loop_fetched (length (site :: sites)) (site :: sites) 1 0)
      as [_ Heq].
    assert (sites_of sites_text ≠ []) as Hne by by rewrite Hsites.
    rewrite (run_unfold _ Hne) in Hok. cbn zeta in Hok. rewrite Hsites in Hok.
    destruct (loop _ 1 (site :: sites) 0) as [t [total|e]];
      unfold outcome in Hok; cbn [fst snd] in *; [|done].
    by apply (Heq total).
  - vm_compute. reflexivity.
  - vm_compute. reflexivity.
Qed.

(** C10. A fetch that succeeds with an empty body ends the visit of the site
    as a failed fetch does: [scrape_site] returns the empty list without
    calling the extractor, whatever the parser would do, and the site adds
    no row and leaves the count as it was. *)
Theorem empty_body_like_fetch_failure u status_code :
  requests_get u = Response status_code "" →
  ¬ (400 ≤ status_code < 600) →
  visit u = ([Print (LogScraping u); Get u], Ok []) ∧
  (∀ text base, Extract text base ∉ trace (visit u)) ∧
  (∀ u' e, requests_get u' = Failed e →
           outcome (visit u') = outcome (visit u) ∧
           rows (trace (visit u')) = rows (trace (visit u))) ∧
  (∀ n idx site total scheme,
     urlparse_scheme site = Ok scheme → normalized scheme site = u →
     outcome (one n idx site total) = Ok total ∧
     rows (trace (one n idx site total)) = []).
Proof.
  intros Hget Hok.
  assert (outcome_of u = EmptyBody) as Ho.
  { unfold site_outcome_of. by rewrite Hget, (raise_for_status_Ok _ Hok). }
  assert (visit u = ([Print (LogScraping u); Get u], Ok [])) as Hvisit
    by by rewrite scrape_site_cases, Ho.
  split_and!.
  - done.
  - intros text base. rewrite Hvisit. unfold trace. cbn [fst].
    intros Hin. repeat (apply elem_of_cons in Hin as [Hin|Hin]; [done|]).
    by apply elem_of_nil in Hin.
  - intros u' e Hfail. rewrite Hvisit, (scrape_site_cases u').
    unfold site_outcome_of. by rewrite Hfail.
  - intros n idx site total scheme Hs <-.
    rewrite (scrape_one_cases _ _ _ _ _ Hs). cbn zeta. by rewrite Ho.
Qed.

End RunnerProperties.

(** ** The runner on the example networks *)

(** C2, as stated, fails: an exception of the extractor on the page of the
    first of two sites ends the run there; the second site is not fetched
    and no count is reported.  So it is with an href that [urljoin] rejects,
    and with a parser that raises. *)
Lemma defect_stops_the_run :
  sites_of two_sites = ["a.test"; "b.test"] ∧
  py_scrape_and_display bad_href_web two_sites =
    ([RefreshButton "disabled"; SetStatus StatusScraping; ClearResults;
      SetStatus (StatusProgress 1 2 "https://a.test");
      Print (LogScraping "https://a.test"); Get "https://a.test";
      Extract "<a href=//[>php</a>" "https://a.test"],
     Raise (ValueError "Invalid IPv6 URL")) ∧
  scrape_and_display failing_parser Urllib.urljoin Html.unescape
      Urllib.urlparse_scheme bad_href_web two_sites =
    ([RefreshButton "disabled"; SetStatus StatusScraping; ClearResults;
      SetStatus (StatusProgress 1 2 "https://a.test");
      Print (LogScraping "https://a.test"); Get "https://a.test";
      Extract "<a href=//[>php</a>" "https://a.test"],
     Raise (OtherException "parser")).
Proof. split_and!; vm_compute; reflexivity. Qed.

(** The run over two sites whose first page holds the rejected href. *)
Lemma extraction_defect_ends_run_witness :
  outcome (scrape_site Bs4.BeautifulSoup Urllib.urljoin Html.unescape
             bad_href_web "https://a.test")
    = Raise (ValueError "Invalid IPv6 URL") ∧
  outcome (py_scrape_and_display bad_href_web two_sites)
    = Raise (ValueError "Invalid IPv6 URL") ∧
  final_counts (trace (py_scrape_and_display bad_href_web two_sites)) = [] ∧
  last (trace (py_scrape_and_display bad_href_web two_sites))
    = Some (Extract "<a href=//[>php</a>" "https://a.test") ∧
  fetched_urls (trace (py_scrape_and_display bad_href_web two_sites))
    = (site_url Urllib.urlparse_scheme <$> []) ++ ["https://a.test"] ∧
  rows (trace (py_scrape_and_display bad_href_web two_sites))
    = flat_map (site_rows Bs4.BeautifulSoup Urllib.urljoin Html.unescape
                  Urllib.urlparse_scheme bad_href_web) [].
Proof.
  apply (extraction_defect_ends_run Bs4.BeautifulSoup Urllib.urljoin
           Html.unescape Urllib.urlparse_scheme bad_href_web two_sites
           [] "a.test" ["b.test"] "" 200 "<a href=//[>php</a>"
           (ValueError "Invalid IPv6 URL")).
  - vm_compute. reflexivity.
  - constructor.
  - vm_compute. reflexivity.
  - vm_compute. reflexivity.
  - lia.
  - reflexivity.
  - vm_compute. reflexivity.
Defined.


Lemma three_sites_list :
  sites_of three_sites = ["down.test"; "gone.test/jobs"; "https://jobs.test"].
Proof. vm_compute. reflexivity. Qed.

Lemma three_sites_not_empty : sites_of three_sites ≠ [].
Proof. by rewrite three_sites_list. Qed.

Lemma flaky_sites_clean :
  Forall (site_clean Bs4.BeautifulSoup Urllib.urljoin Html.unescape
            Urllib.urlparse_scheme flaky_web)
         (sites_of three_sites).
Proof.
  rewrite three_sites_list.
  repeat apply Forall_cons_2; [..|apply Forall_nil_2].
  all: (split; [eexists; vm_compute; reflexivity|]).
  all: intros status text Hget Hok Htext.
  all: vm_compute in Hget.
  - discriminate.
  - injection Hget as <- <-. lia.
  - injection Hget as <- <-. eexists. vm_compute. reflexivity.
Qed.

Lemma dead_sites_fail :
  Forall (fetch_fails Urllib.urlparse_scheme dead_web) (sites_of three_sites).
Proof.
  rewrite three_sites_list.
  repeat apply Forall_cons_2; [..|apply Forall_nil_2].
  all: (split; [eexists; vm_compute; reflexivity|exact I]).
Qed.


Lemma blank_text_no_sites : sites_of blank_text = [].
Proof. vm_compute. reflexivity. Qed.

(** A text of blank lines holds no site. *)
Lemma no_sites_no_fetch_witness :
  py_scrape_and_display flaky_web blank_text
    = ([ShowWarning "No sites" "Please add at least one site URL to scan."], Ok tt) ∧
  fetched_urls (trace (py_scrape_and_display flaky_web blank_text)) = [] ∧
  rows (trace (py_scrape_and_display flaky_web blank_text)) = [] ∧
  final_counts (trace (py_scrape_and_display flaky_web blank_text)) = [].
Proof.
  exact (no_sites_no_fetch Bs4.BeautifulSoup Urllib.urljoin Html.unescape
           Urllib.urlparse_scheme flaky_web blank_text blank_text_no_sites).
Defined.

Lemma flaky_run_completes :
  outcome (py_scrape_and_display flaky_web three_sites) = Ok tt.
Proof. vm_compute. reflexivity. Qed.

Lemma example_site_has_no_scheme : Urllib.urlparse_scheme "example.com/php" = Ok "".
Proof. vm_compute. reflexivity. Qed.

(** The three sites of the example are fetched under their https URLs. *)
Lemma missing_scheme_gets_https_witness :
  fetched_urls (trace (py_scrape_and_display flaky_web three_sites))
    = site_url Urllib.urlparse_scheme <$> sites_of three_sites ∧
  site_url Urllib.urlparse_scheme "example.com/php" = "https://" +:+ "example.com/php".
Proof.
  destruct (missing_scheme_gets_https Bs4.BeautifulSoup Urllib.urljoin
              Html.unescape Urllib.urlparse_scheme flaky_web three_sites)
    as (Hnone & _ & _ & Hall & _).
  split.
  - exact (Hall flaky_run_completes).
  - exact (Hnone "example.com/php" example_site_has_no_scheme).
Defined.

Lemma empty_web_reply : empty_web "https://a.test" = Response 200 "".
Proof. reflexivity. Qed.

Lemma status_200_is_no_error : ¬ (400 ≤ 200 < 600).
Proof. lia. Qed.

(** An empty body is not handed to the parser, here one that always raises. *)
Lemma empty_body_like_fetch_failure_witness :
  scrape_site failing_parser Urllib.urljoin Html.unescape empty_web "https://a.test"
    = ([Print (LogScraping "https://a.test"); Get "https://a.test"], Ok []).
Proof.
  exact (proj1 (empty_body_like_fetch_failure failing_parser Urllib.urljoin
                  Html.unescape Urllib.urlparse_scheme empty_web
                  "https://a.test" 200 empty_web_reply status_200_is_no_error)).
Defined.

(** ** More on the extractor *)

Section MoreResults.

Context {A B : Type}.
Implicit Types (f : A → result B) (l : list A).

Lemma rmapM_Raise f l e :
  rmapM f l = Raise e → ∃ x, x ∈ l ∧ f x = Raise e.
Proof.
  induction l as [|x l IH]; simpl; [done|].
  destruct (f x) as [y|e'] eqn:Hx; cbn [rbind].
  - destruct (rmapM f l) as [ys|e'']; cbn [rbind]; [done|].
    intros [= ->]. destruct (IH eq_refl) as (x' & Hin & Hx').
    exists x'. split; [by right|done].
  - intros [= ->]. exists x. split; [by left|done].
Qed.

Lemma rmapM_total f l :
  (∀ x, x ∈ l → ∃ y, f x = Ok y) → ∃ ys, rmapM f l = Ok ys.
Proof.
  induction l as [|x l IH]; intros Hall; simpl; [by eexists|].
  destruct (Hall x) as [y ->]; [by left|]. cbn [rbind].
  destruct IH as [ys ->]; [intros x' Hx'; apply Hall; by right|].
  by eexists.
Qed.

Lemma rmapM_elem_inv f l ys y :
  rmapM f l = Ok ys → y ∈ ys → ∃ x, x ∈ l ∧ f x = Ok y.
Proof.
  intros H%rmapM_Ok Hy.
  apply list_elem_of_lookup in Hy as [i Hi].
  destruct (Forall2_lookup_r _ _ _ _ _ H Hi) as (x & Hx & Hf).
  exists x. split; [by eapply list_elem_of_lookup_2|done].
Qed.

End MoreResults.

Lemma filter_other_keys (m : Candidate) (l : list Candidate) :
  key m ∉ key <$> l → filter (λ x, key x ≠ key m) l = l.
Proof.
  induction l as [|x l IH]; [done|]. cbn [fmap list_fmap].
  intros Hm. rewrite filter_cons_True.
  - f_equal. apply IH. intros Hin. apply Hm. by right.
  - intros Hk. apply Hm. rewrite Hk. by left.
Qed.

Lemma dedup_first_id (l : list Candidate) :
  NoDup (key <$> l) → dedup_first l = l.
Proof.
  induction l as [|m l IH]; [done|].
  cbn [fmap list_fmap dedup_first]. intros [Hm Hl]%NoDup_cons.
  by rewrite (IH Hl), filter_other_keys.
Qed.

Section MoreExtractor.

Variable BeautifulSoup : string → result Node.
Variable urljoin : string → string → result string.
Variable unescape : string → string.

Abbreviation extract' := (find_php_links_on_html BeautifulSoup urljoin unescape).
Abbreviation matches' := (raw_matches BeautifulSoup urljoin unescape).

Lemma candidate_Ok base_url a p c :
  candidate urljoin unescape base_url (a, p) = Ok c ↔
  ∃ full, urljoin base_url (href_of a) = Ok full ∧
          c = mkCandidate (unescape (Str.or_else (get_text a) (href_of a))) full.
Proof.
  unfold candidate, candidate_of. cbn [fst].
  destruct (urljoin base_url (href_of a)) as [full|e]; cbn [rbind].
  - split.
    + intros [= <-]. by exists full.
    + by intros (full' & [= <-] & ->).
  - split; [done|]. by intros (full & ? & _).
Qed.

Lemma candidate_Raise base_url a p e :
  candidate urljoin unescape base_url (a, p) = Raise e ↔
  urljoin base_url (href_of a) = Raise e.
Proof.
  unfold candidate, candidate_of. cbn [fst].
  destruct (urljoin base_url (href_of a)) as [full|e']; cbn [rbind]; [|split; congruence].
  split; intros; discriminate.
Qed.

(** X1. Every link the extractor returns comes from an anchor of the page
    that has an href and that rule A or rule B matches: its url is the href
    joined to the base URL, and its title is the unescaped text of the anchor
    or, when the text is empty, the unescaped href.  An anchor that neither
    rule matches, or an element without href, gives no link. *)
Theorem links_come_from_matched_anchors html_text base_url links :
  extract' html_text base_url = Ok links →
  ∃ soup,
    BeautifulSoup html_text = Ok soup ∧
    ∀ c, c ∈ links →
      ∃ a p full,
        (a, p) ∈ find_all_a soup ∧
        is_a_with_href a = true ∧
        (occurs_ignoring_case "php" (get_text a)
         ∨ occurs_ignoring_case "php" (href_of a)
         ∨ occurs_ignoring_case "php" (get_text p)) ∧
        urljoin base_url (href_of a) = Ok full ∧
        url c = full ∧
        title c = unescape (Str.or_else (get_text a) (href_of a)).
Proof.
  intros (ms & Hms & ->)%extract_Ok.
  rewrite raw_matches_spec in Hms.
  apply rbind_Ok in Hms as (soup & Hsoup & Hms).
  exists soup. split; [done|]. intros c Hc.
  apply elem_of_take in Hc as (i & Hi & _).
  apply list_elem_of_lookup_2, dedup_first_subseteq in Hi.
  destruct (rmapM_elem_inv _ _ _ _ Hms Hi) as ([a p] & Hin & Hcand).
  apply list_elem_of_filter in Hin as [Hm Hin].
  apply candidate_Ok in Hcand as (full & Hfull & ->).
  exists a, p, full. split_and!; try done.
  - by eapply find_all_a_filter.
  - unfold matched in Hm. cbn [fst snd] in Hm.
    apply orb_true_iff in Hm as [Ha%rule_a_iff|Hb%rule_b_iff]; tauto.
Qed.

(** X2. An anchor with an href whose parent element holds the keyword in
    its text, in any case, has its candidate in the deduplicated list of
    matches when the extraction returns, and in the output when that list
    has at most 200 entries, whatever the anchor's own text and href. *)
Theorem parent_keyword_anchor_listed html_text base_url soup a p links :
  BeautifulSoup html_text = Ok soup →
  (a, p) ∈ find_all_a soup →
  occurs_ignoring_case "php" (get_text p) →
  extract' html_text base_url = Ok links →
  ∃ c ms,
    candidate urljoin unescape base_url (a, p) = Ok c ∧
    matches' html_text base_url = Ok ms ∧
    c ∈ dedup_first ms ∧
    (length (dedup_first ms) ≤ MAX_LINKS_PER_SITE → c ∈ links).
Proof.
  intros Hsoup Hin Hkw Hex.
  assert (matched (a, p) = true) as Hm.
  { unfold matched. cbn [fst snd]. apply orb_true_iff. right. by apply rule_b_iff. }
  destruct (matched_anchor_listed _ _ _ _ _ _ _ _ _ Hsoup Hin Hm Hex)
    as (c & ms & ? & ? & ? & ? & ? & ?).
  by exists c, ms.
Qed.

(** X3. The extractor raises only what the parser raises or what [urljoin]
    raises on the href of a matched anchor; the href of an anchor that no
    rule matches never reaches [urljoin].  When the parser returns and
    [urljoin] accepts the href of every matched anchor, the extractor
    returns. *)
Theorem extractor_raises_only_on_matched_href html_text base_url :
  (∀ e, extract' html_text base_url = Raise e →
     BeautifulSoup html_text = Raise e ∨
     ∃ soup a p,
       BeautifulSoup html_text = Ok soup ∧
       (a, p) ∈ find_all_a soup ∧ matched (a, p) = true ∧
       urljoin base_url (href_of a) = Raise e) ∧
  (∀ soup,
     BeautifulSoup html_text = Ok soup →
     (∀ a p, (a, p) ∈ find_all_a soup → matched (a, p) = true →
             ∃ full, urljoin base_url (href_of a) = Ok full) →
     ∃ links, extract' html_text base_url = Ok links).
Proof.
  split.
  - intros e. rewrite extract_spec, raw_matches_spec. unfold rmap.
    destruct (BeautifulSoup html_text) as [soup|e'] eqn:Hsoup; cbn [rbind].
    + destruct (rmapM _ _) as [ms|e''] eqn:Hms; cbn [rbind]; [done|].
      intros [= ->]. right.
      apply rmapM_Raise in Hms as ([a p] & Hin & Hraise).
      apply list_elem_of_filter in Hin as [Hm Hin].
      apply candidate_Raise in Hraise. by exists soup, a, p.
    + intros [= ->]. by left.
  - intros soup Hsoup Hall. rewrite extract_spec, raw_matches_spec, Hsoup.
    unfold rmap. cbn [rbind].
    destruct (rmapM_total (candidate urljoin unescape base_url)
                (filter (λ ap, matched ap = true) (find_all_a soup))) as [ms ->].
    + intros [a p] [Hm Hin]%list_elem_of_filter.
      destruct (Hall a p Hin Hm) as [full Hfull].
      eexists. apply candidate_Ok. by eexists.
    + by eexists.
Qed.

(** X4. The output is a sublist of the list of matches: it invents nothing
    and keeps the order of the page.  A list of matches with no repeated
    (url, title) pair and at most 200 entries is returned as it is. *)
Theorem output_keeps_order_of_matches html_text base_url ms links :
  matches' html_text base_url = Ok ms →
  extract' html_text base_url = Ok links →
  links `sublist_of` ms ∧
  (NoDup (key <$> ms) → length ms ≤ MAX_LINKS_PER_SITE → links = ms).
Proof.
  intros Hms (ms' & Hms' & ->)%extract_Ok.
  rewrite Hms in Hms'. injection Hms' as <-. split.
  - etrans; [apply sublist_take|apply dedup_first_sublist].
  - intros Hnd Hlen. rewrite (dedup_first_id _ Hnd). by apply take_ge.
Qed.

End MoreExtractor.

(** ** More on the runner *)

Section MoreRunner.

Variable BeautifulSoup : string → result Node.
Variable urljoin : string → string → result string.
Variable unescape : string → string.
Variable urlparse_scheme : string → result string.
Variable requests_get : string → reply.

Abbreviation run' :=
  (scrape_and_display BeautifulSoup urljoin unescape urlparse_scheme requests_get).
Abbreviation loop' :=
  (scrape_loop BeautifulSoup urljoin unescape urlparse_scheme requests_get).
Abbreviation one' :=
  (scrape_one BeautifulSoup urljoin unescape urlparse_scheme requests_get).
Abbreviation outcome_of' :=
  (site_outcome_of BeautifulSoup urljoin unescape requests_get).
Abbreviation links_at' :=
  (site_links BeautifulSoup urljoin unescape urlparse_scheme requests_get).
Abbreviation rows_at' :=
  (site_rows BeautifulSoup urljoin unescape urlparse_scheme requests_get).
Abbreviation url_at' := (site_url urlparse_scheme).

(** X5. [fetch_page] never raises and makes one request, of the URL it is
    given, with no second attempt.  It returns the text of a response whose
    status is no 4xx or 5xx, unchanged and with nothing logged; otherwise it
    returns [None] after one line of log that names the URL and the
    exception. *)
Theorem fetch_page_one_attempt url :
  let r := fetch_page requests_get url in
  fetched_urls (trace r) = [url] ∧
  match requests_get url with
  | Failed e =>
      r = ([Get url; Print (LogFetchError url e)], Ok None)
  | Response status_code text =>
      if decide (400 ≤ status_code < 600)
      then r = ([Get url; Print (LogFetchError url (HTTPError status_code))], Ok None)
      else r = ([Get url], Ok (Some text))
  end.
Proof.
  cbn zeta. unfold fetch_page, raise_for_status.
  destruct (requests_get url) as [e|status text]; [done|].
  by destruct (decide (400 ≤ status < 600)).
Qed.

(** The loop, one site at a time. *)
Lemma scrape_loop_trace_ind n
    (Q : nat → list string → nat → list event → result nat → Prop) :
  (∀ idx total, Q idx [] total [] (Ok total)) →
  (∀ idx site rest total t e,
     one' n idx site total = (t, Raise e) → Q idx (site :: rest) total t (Raise e)) →
  (∀ idx site rest total t1 k t2 r,
     one' n idx site total = (t1, Ok k) →
     Q (idx + 1) rest k t2 r → Q idx (site :: rest) total (t1 ++ t2) r) →
  ∀ sites idx total,
    Q idx sites total (loop' n idx sites total).1 (loop' n idx sites total).2.
Proof.
  intros Hnil Hraise Hstep. induction sites as [|site sites IH]; intros idx total.
  - apply Hnil.
  - cbn [scrape_loop]. destruct (one' n idx site total) as [t1 [k|e]] eqn:Hone.
    + rewrite bind_Ok. cbn [fst snd]. by eapply Hstep.
    + rewrite bind_Raise. cbn [fst snd]. by eapply Hraise.
Qed.

Ltac absent :=
  let H := fresh in
  intros H;
  repeat (apply elem_of_cons in H as [H|H]; [discriminate|]);
  by apply elem_of_nil in H.

(** What one iteration shows of itself. *)
Lemma scrape_one_views n idx site total :
  let r := one' n idx site total in
  button_states r.1 = [] ∧ (ClearResults ∉ r.1) ∧ final_counts r.1 = [] ∧
  match r.2 with
  | Ok k =>
      progress r.1 = [(idx, n, url_at' site)] ∧
      pace r.1 = [Some (url_at' site); None] ∧
      rows r.1 = rows_at' site ∧
      k = total + length (rows r.1)
  | Raise _ =>
      progress r.1 `prefix_of` [(idx, n, url_at' site)] ∧
      pace r.1 `prefix_of` [Some (url_at' site); None] ∧
      rows r.1 = []
  end.
Proof.
  cbn zeta. destruct (urlparse_scheme site) as [scheme|e] eqn:Hs.
  - rewrite (scrape_one_cases _ _ _ _ _ _ _ _ _ _ Hs).
    unfold site_rows, site_links. rewrite (url_at_Ok _ _ _ Hs). cbn zeta.
    destruct (outcome_of' (normalized scheme site)) as [e| |links|text e];
      cbn [fst snd].
    + split_and!; try done; try absent; cbn; lia.
    + split_and!; try done; try absent; cbn; lia.
    + unfold button_states, progress, pace.
      rewrite !omap_app, !rows_app, !final_counts_app.
      rewrite rows_rows, final_counts_rows.
      assert (∀ (B : Type) (f : event → option B),
                (∀ l, f (row_event (normalized scheme site) l) = None) →
                omap f (row_event (normalized scheme site) <$> links) = [])
        as Hnone.
      { intros B f Hf. induction links as [|l links IH]; [done|].
        cbn. by rewrite Hf. }
      rewrite !Hnone by done. cbn. rewrite app_nil_r, length_fmap.
      split_and!; try done.
      intros Hin. repeat (apply elem_of_cons in Hin as [Hin|Hin]; [done|]).
      apply elem_of_app in Hin as [Hin|Hin].
      * apply list_elem_of_fmap in Hin as (l & Hl & _). discriminate.
      * revert Hin. absent.
    + split_and!; try done; try absent. cbn. by exists [None].
  - rewrite (scrape_one_raise _ _ _ _ _ _ _ _ _ _ Hs). cbn.
    split_and!; try done; try apply prefix_nil. apply not_elem_of_nil.
Qed.

Lemma numbered_cons n idx site sites :
  numbered urlparse_scheme n idx (site :: sites) =
    (idx, n, url_at' site) :: numbered urlparse_scheme n (idx + 1) sites.
Proof.
  unfold numbered. rewrite imap_cons, Nat.add_0_r. f_equal.
  apply imap_ext. intros i x _. cbn. do 2 f_equal. lia.
Qed.

(** What the loop shows of itself: nothing of the button, of the clearing
    or of the final count; of progress, requests and rows, a prefix of what
    the list of sites announces, and all of it when the loop returns. *)
Lemma scrape_loop_views n sites idx total :
  let r := loop' n idx sites total in
  button_states r.1 = [] ∧ (ClearResults ∉ r.1) ∧ final_counts r.1 = [] ∧
  progress r.1 `prefix_of` numbered urlparse_scheme n idx sites ∧
  pace r.1 `prefix_of` paced_requests urlparse_scheme sites ∧
  rows r.1 `prefix_of` flat_map rows_at' sites ∧
  ∀ k, r.2 = Ok k →
    progress r.1 = numbered urlparse_scheme n idx sites ∧
    pace r.1 = paced_requests urlparse_scheme sites ∧
    rows r.1 = flat_map rows_at' sites ∧
    k = total + length (rows r.1).
Proof.
  cbn zeta. revert sites idx total.
  apply (scrape_loop_trace_ind n (λ idx sites total t r,
    button_states t = [] ∧ (ClearResults ∉ t) ∧ final_counts t = [] ∧
    progress t `prefix_of` numbered urlparse_scheme n idx sites ∧
    pace t `prefix_of` paced_requests urlparse_scheme sites ∧
    rows t `prefix_of` flat_map rows_at' sites ∧
    ∀ k, r = Ok k →
      progress t = numbered urlparse_scheme n idx sites ∧
      pace t = paced_requests urlparse_scheme sites ∧
      rows t = flat_map rows_at' sites ∧
      k = total + length (rows t))).
  - intros idx total. split_and!; try done; try apply not_elem_of_nil.
    intros k [= <-]. cbn. split_and!; first [done|lia].
  - intros idx site rest total t e Hone.
    destruct (scrape_one_views n idx site total) as (Hb & Hc & Hf & Hr).
    rewrite Hone in Hb, Hc, Hf, Hr. cbn [fst snd] in *.
    destruct Hr as (Hp & Hpace & Hrows).
    rewrite numbered_cons. cbn [paced_requests flat_map].
    split_and!; try done.
    + etrans; [done|]. by exists (numbered urlparse_scheme n (idx + 1) rest).
    + etrans; [done|]. by exists (paced_requests urlparse_scheme rest).
    + rewrite Hrows. apply prefix_nil.
  - intros idx site rest total t1 k t2 r Hone (Hb2 & Hc2 & Hf2 & Hp2 & Hpace2 & Hr2 & Hok2).
    destruct (scrape_one_views n idx site total) as (Hb & Hc & Hf & Hr).
    rewrite Hone in Hb, Hc, Hf, Hr. cbn [fst snd] in *.
    destruct Hr as (Hp & Hpace & Hrows & Hk).
    unfold button_states, progress, pace in *.
    rewrite numbered_cons. cbn [paced_requests flat_map].
    rewrite !omap_app, rows_app, final_counts_app, Hb, Hb2, Hf, Hf2, Hp, Hpace, Hrows.
    split_and!; try done.
    + intros [?|?]%elem_of_app; tauto.
    + by apply prefix_cons.
    + by apply (prefix_app [Some (url_at' site); None]).
    + by apply prefix_app.
    + intros k' Hk'. destruct (Hok2 k' Hk') as (-> & Hpace' & -> & ->).
      unfold pace in Hpace'. rewrite Hpace'. split_and!; try done.
      rewrite length_app, Hk, Hrows. lia.
Qed.

(** A view of the trace that the statuses, the button, the clearing and
    the warning do not enter shows the run as it shows its loop. *)
Lemma run_view {B : Type} (f : event → option B) sites_text :
  (∀ state, f (RefreshButton state) = None) →
  (∀ status, f (SetStatus status) = None) →
  f ClearResults = None →
  (∀ caption message, f (ShowWarning caption message) = None) →
  omap f (trace (run' sites_text)) =
    omap f (loop' (length (sites_of sites_text)) 1 (sites_of sites_text) 0).1.
Proof.
  intros Hbutton Hstatus Hclear Hwarn.
  destruct (sites_of sites_text) as [|site sites] eqn:Hsites.
  - unfold scrape_and_display. cbn zeta. rewrite Hsites. cbn. by rewrite Hwarn.
  - rewrite run_unfold by by rewrite Hsites. cbn zeta. rewrite Hsites.
    destruct (loop' _ 1 (site :: sites) 0) as [t [total|e]];
      unfold trace; cbn [fst snd]; rewrite ?omap_app; cbn;
      rewrite ?Hbutton, ?Hstatus, ?Hclear; by rewrite ?app_nil_r.
Qed.

Lemma run_outcome_loop sites_text :
  outcome (run' sites_text) = Ok tt →
  sites_of sites_text ≠ [] →
  ∃ k, (loop' (length (sites_of sites_text)) 1 (sites_of sites_text) 0).2 = Ok k.
Proof.
  intros Hok Hne. rewrite (run_unfold _ _ _ _ _ _ Hne) in Hok. cbn zeta in Hok.
  destruct (loop' _ 1 _ 0).2 as [k|e]; [by exists k|done].
Qed.

(** In a prefix of requests each followed by its sleep, a sleep separates
    any two requests. *)
Lemma paced_gap sites (l x y z : list (option string)) a b :
  l `prefix_of` paced_requests urlparse_scheme sites →
  l = x ++ Some a :: y ++ Some b :: z →
  None ∈ y.
Proof.
  intros [rest Hrest] ->. revert x Hrest.
  induction sites as [|site sites IH]; intros x Hrest.
  - by destruct x.
  - cbn [paced_requests flat_map app] in Hrest.
    destruct x as [|x0 [|x1 x]]; cbn [app] in Hrest.
    + injection Hrest as _ Hrest. destruct y as [|y0 y]; [done|].
      cbn [app] in Hrest. injection Hrest as <- _. by left.
    + by injection Hrest as _ Hrest.
    + injection Hrest as _ _ Hrest. by eapply IH.
Qed.

(** X8. The requests of a run and its sleeps alternate: every request of a
    site is followed by one sleep before the next site is requested, the
    last site included when the run completes.  So a sleep lies between any
    two requests, whatever the sites answer and however the run ends. *)
Theorem requests_are_paced sites_text :
  let sites := sites_of sites_text in
  let r := run' sites_text in
  pace (trace r) `prefix_of` paced_requests urlparse_scheme sites ∧
  (outcome r = Ok tt → pace (trace r) = paced_requests urlparse_scheme sites) ∧
  (∀ t1 u1 t2 u2 t3,
     trace r = t1 ++ Get u1 :: t2 ++ Get u2 :: t3 → Sleep ∈ t2).
Proof.
  cbn zeta.
  assert (pace (trace (run' sites_text))
            `prefix_of` paced_requests urlparse_scheme (sites_of sites_text))
    as Hprefix.
  { unfold pace. rewrite run_view by done. apply scrape_loop_views. }
  split_and!; [done| |].
  - intros Hok. destruct (sites_of sites_text) as [|site sites] eqn:Hsites.
    + unfold scrape_and_display. cbn zeta. by rewrite Hsites.
    + assert (sites_of sites_text ≠ []) as Hne by by rewrite Hsites.
      destruct (run_outcome_loop _ Hok Hne) as [k Hk].
      unfold pace. rewrite run_view by done. rewrite Hsites in *.
      by apply (scrape_loop_views _ _ _ _) in Hk as (_ & ? & _).
  - intros t1 u1 t2 u2 t3 Htrace.
    assert (None ∈ pace t2) as Hnone.
    { eapply (paced_gap _ _ (pace t1) (pace t2) (pace t3) u1 u2); [exact Hprefix|].
      rewrite Htrace. unfold pace. rewrite omap_app. cbn. by rewrite omap_app. }
    apply list_elem_of_omap in Hnone as (e & He & Hsome).
    by destruct e as [| | | | |[]| | |].
Qed.

(** X9. The progress statuses of a run number the sites from 1, each with
    the number of sites as total and the URL the site is fetched under, in
    the order of the list; the run that completes shows one for every
    site. *)
Theorem progress_counts_sites sites_text :
  let sites := sites_of sites_text in
  let r := run' sites_text in
  progress (trace r) `prefix_of` numbered urlparse_scheme (length sites) 1 sites ∧
  (outcome r = Ok tt →
   progress (trace r) = numbered urlparse_scheme (length sites) 1 sites).
Proof.
  cbn zeta.
  destruct (sites_of sites_text) as [|site sites] eqn:Hsites.
  - unfold scrape_and_display. cbn zeta. rewrite Hsites. by cbn.
  - assert (sites_of sites_text ≠ []) as Hne by by rewrite Hsites.
    rewrite (run_unfold _ _ _ _ _ _ Hne). cbn zeta. rewrite Hsites.
    destruct (scrape_loop_views (length (site :: sites)) (site :: sites) 1 0)
      as (_ & _ & _ & Hp & _ & _ & Hok).
    destruct (loop' _ 1 (site :: sites) 0) as [t [total|e]];
      unfold trace, outcome, progress in *; cbn [fst snd] in *;
      rewrite ?omap_app; cbn; rewrite ?app_nil_r.
    + split; [done|]. intros _. by destruct (Hok total eq_refl) as (? & _).
    + by split.
Qed.

(** X10. A run over a list of sites that is not empty disables the refresh
    button before anything else; it enables the button again, as its last
    act, only when it completes.  A run that an exception ends leaves the
    button disabled, and a run without sites does not touch it. *)
Theorem button_enabled_only_on_completion sites_text :
  let sites := sites_of sites_text in
  let r := run' sites_text in
  button_states (trace r) =
    match sites, outcome r with
    | [], _ => []
    | _, Ok _ => ["disabled"; "normal"]
    | _, Raise _ => ["disabled"]
    end ∧
  (sites ≠ [] → head (trace r) = Some (RefreshButton "disabled")) ∧
  (sites ≠ [] → outcome r = Ok tt → last (trace r) = Some (RefreshButton "normal")).
Proof.
  cbn zeta. destruct (sites_of sites_text) as [|site sites] eqn:Hsites.
  - unfold scrape_and_display. cbn zeta. rewrite Hsites. by cbn.
  - assert (sites_of sites_text ≠ []) as Hne by by rewrite Hsites.
    rewrite (run_unfold _ _ _ _ _ _ Hne). cbn zeta. rewrite Hsites.
    destruct (scrape_loop_views (length (site :: sites)) (site :: sites) 1 0)
      as (Hb & _).
    destruct (loop' _ 1 (site :: sites) 0) as [t [total|e]];
      unfold trace, outcome, button_states in *; cbn [fst snd] in *.
    + rewrite !omap_app, Hb. split_and!; try done. intros _ _.
      by rewrite !last_app.
    + rewrite !omap_app, Hb. by split_and!.
Qed.

Lemma table_after_app (tree : table) (t1 t2 : list event) :
  table_after tree (t1 ++ t2) = table_after (table_after tree t1) t2.
Proof. apply fold_left_app. Qed.

Lemma table_after_no_clear (tree : table) (t : list event) :
  ClearResults ∉ t → table_after tree t = tree ++ rows t.
Proof.
  revert tree. induction t as [|e t IH]; intros tree Hclear.
  - cbn. by rewrite app_nil_r.
  - assert (ClearResults ∉ t) as Ht by (intros ?; apply Hclear; by right).
    assert (e ≠ ClearResults) as He by (intros ->; apply Hclear; by left).
    unfold table_after. cbn [fold_left]. fold (table_after (table_step tree e) t).
    rewrite (IH _ Ht).
    destruct e; try done; cbn.
    unfold add_result. by rewrite <-(assoc_L (++)).
Qed.

(** X11. Whatever the table held, after a run over a list of sites that is
    not empty it holds the rows of this run and no other, in the order they
    were added, also when an exception ended the run; after a run without
    sites it holds what it held. *)
Theorem table_holds_rows_of_last_run sites_text (tree : table) :
  let sites := sites_of sites_text in
  let r := run' sites_text in
  (sites = [] → table_after tree (trace r) = tree) ∧
  (sites ≠ [] → table_after tree (trace r) = rows (trace r)).
Proof.
  cbn zeta. split.
  - intros Hsites. unfold scrape_and_display. cbn zeta. by rewrite Hsites.
  - intros Hne. rewrite (run_unfold _ _ _ _ _ _ Hne). cbn zeta.
    destruct (scrape_loop_views (length (sites_of sites_text))
                (sites_of sites_text) 1 0) as (_ & Hclear & _).
    destruct (loop' _ 1 (sites_of sites_text) 0) as [t [total|e]];
      unfold trace; cbn [fst snd] in *;
      rewrite !table_after_app, (table_after_no_clear _ t Hclear), !rows_app;
      cbn; by rewrite ?app_nil_r.
Qed.

Lemma links_at_inv site l :
  l ∈ links_at' site →
  ∃ status_code text links,
    requests_get (url_at' site) = Response status_code text ∧
    ¬ (400 ≤ status_code < 600) ∧
    Str.truthy text = true ∧
    find_php_links_on_html BeautifulSoup urljoin unescape text (url_at' site)
      = Ok links ∧
    l ∈ links.
Proof.
  unfold site_links, site_outcome_of.
  destruct (requests_get (url_at' site)) as [e|status text]; [by intros ?%elem_of_nil|].
  unfold raise_for_status.
  destruct (decide (400 ≤ status < 600)) as [Herr|Hok]; [by intros ?%elem_of_nil|].
  destruct (Str.truthy text) eqn:Htext; [|by intros ?%elem_of_nil].
  destruct (find_php_links_on_html _ _ _ text _) as [links|e] eqn:Hfind;
    [|by intros ?%elem_of_nil].
  intros Hl. by exists status, text, links.
Qed.

Lemma rows_at_length site : length (rows_at' site) ≤ MAX_LINKS_PER_SITE.
Proof.
  unfold site_rows. rewrite length_fmap.
  unfold site_links, site_outcome_of.
  destruct (requests_get (url_at' site)) as [e|status text]; [cbn; lia|].
  destruct (raise_for_status status); [|cbn; lia].
  destruct (Str.truthy text); [|cbn; lia].
  destruct (find_php_links_on_html _ _ _ text _) as [links|e] eqn:Hfind; [|cbn; lia].
  apply extract_Ok in Hfind as (ms & _ & ->). rewrite length_take. lia.
Qed.

(** The rows of the loop are those of the first sites of the list. *)
Lemma scrape_loop_rows_take n sites :
  ∀ idx total,
    ∃ k, rows (loop' n idx sites total).1 = flat_map rows_at' (take k sites).
Proof.
  induction sites as [|site sites IH]; intros idx total; [by exists 0|].
  cbn [scrape_loop].
  destruct (urlparse_scheme site) as [scheme|e] eqn:Hs.
  - destruct (scrape_one_summary BeautifulSoup urljoin unescape urlparse_scheme
                requests_get n idx site total scheme Hs) as (_ & _ & Hr).
    destruct (one' n idx site total) as [t1 [k1|e1]]; cbn [fst snd] in *.
    + rewrite bind_Ok. cbn [fst]. destruct (IH (idx + 1) k1) as [k Hk].
      exists (S k). rewrite rows_app, Hk. cbn [take flat_map]. f_equal.
      by destruct (outcome_of' (url_at' site)); destruct Hr.
    + rewrite bind_Raise. cbn [fst]. exists 0.
      destruct (outcome_of' (url_at' site));
        [by destruct Hr..|by destruct Hr as (_ & ? & _)].
  - rewrite (scrape_one_raise BeautifulSoup urljoin unescape urlparse_scheme
               requests_get n idx site total e Hs), bind_Raise.
    by exists 0.
Qed.

(** X12. Every row a run adds, however the run ends, shows a link the
    extractor returned for the page of a site of the list: the page was
    fetched under the URL of the site with a status that is no error and a
    text that is not empty, the row's second value is that URL, its third
    the url of the link, and its first the title of the link or, when the
    title is empty, the url.  The rows are those of the first sites of the
    list, site after site. *)
Theorem rows_come_from_fetched_pages sites_text :
  let sites := sites_of sites_text in
  let r := run' sites_text in
  rows (trace r) `prefix_of` flat_map rows_at' sites ∧
  (∀ shown site_shown url_shown,
    (shown, site_shown, url_shown) ∈ rows (trace r) →
    ∃ site status_code text links l,
      site ∈ sites ∧ site_shown = url_at' site ∧
      requests_get site_shown = Response status_code text ∧
      ¬ (400 ≤ status_code < 600) ∧ text ≠ "" ∧
      find_php_links_on_html BeautifulSoup urljoin unescape text site_shown
        = Ok links ∧
      l ∈ links ∧ url_shown = url l ∧
      shown = Str.or_else (title l) (url l)) ∧
  ∃ k, rows (trace r) = flat_map rows_at' (take k sites).
Proof.
  cbn zeta.
  assert (rows (trace (run' sites_text))
            `prefix_of` flat_map rows_at' (sites_of sites_text)) as Hprefix.
  { unfold rows. rewrite run_view by done. apply scrape_loop_views. }
  split_and!; [done| |].
  2: { unfold rows. rewrite run_view by done. apply scrape_loop_rows_take. }
  intros shown site_shown url_shown Hrow.
  destruct Hprefix as [rest Hrest].
  assert ((shown, site_shown, url_shown) ∈ flat_map rows_at' (sites_of sites_text))
    as Hin by (rewrite Hrest; apply elem_of_app; by left).
  apply elem_of_flat_map in Hin as (site & Hsite & Hin).
  unfold site_rows in Hin. apply list_elem_of_fmap in Hin as (l & Hl & Hin).
  injection Hl as -> -> ->.
  destruct (links_at_inv _ _ Hin) as (status & text & links & ? & ? & Htext & ? & ?).
  exists site, status, text, links, l. split_and!; try done.
  by intros ->.
Qed.

(** X13. No site adds more than 200 rows, so a run adds at most 200 rows
    for each site of the list, however it ends; and the count a completed
    run reports is the number of rows it added. *)
Theorem count_is_rows_within_bound sites_text :
  let sites := sites_of sites_text in
  let r := run' sites_text in
  length (rows (trace r)) ≤ MAX_LINKS_PER_SITE * length sites ∧
  (sites ≠ [] → outcome r = Ok tt →
   final_counts (trace r) = [length (rows (trace r))]).
Proof.
  cbn zeta. split.
  - assert (rows (trace (run' sites_text))
              `prefix_of` flat_map rows_at' (sites_of sites_text)) as Hprefix.
    { unfold rows. rewrite run_view by done. apply scrape_loop_views. }
    apply prefix_length in Hprefix. etrans; [done|].
    clear Hprefix. induction (sites_of sites_text) as [|site sites IH]; [done|].
    cbn [flat_map length]. rewrite length_app.
    pose proof (rows_at_length site). lia.
  - intros Hne Hok. rewrite (run_unfold _ _ _ _ _ _ Hne) in *. cbn zeta in *.
    destruct (scrape_loop_views (length (sites_of sites_text))
                (sites_of sites_text) 1 0) as (_ & _ & Hf & _ & _ & _ & Hk).
    destruct (loop' _ 1 (sites_of sites_text) 0) as [t [total|e]];
      unfold trace, outcome in *; cbn [fst snd] in *; [|done].
    destruct (Hk total eq_refl) as (_ & _ & _ & ->).
    rewrite !final_counts_app, !rows_app, Hf. cbn. by rewrite app_nil_r.
Qed.

End MoreRunner.

(** ** The lines of the text widget *)

Section Lines.

Implicit Types (s t w cur rest : string) (c : ascii) (l : list string).

Lemma append_nil_r s : s +:+ "" = s.
Proof. induction s as [|c s IH]; [done|]. by rewrite append_cons, IH. Qed.

Lemma append_assoc s t w : (s +:+ t) +:+ w = s +:+ (t +:+ w).
Proof. induction s as [|c s IH]; [done|]. by rewrite !append_cons, IH. Qed.

Lemma truthy_iff s : Str.truthy s = true ↔ s ≠ "".
Proof. by destruct s. Qed.

Lemma rev_app_rev_app s t w :
  String.rev_app (String.rev_app s t) w = String.rev_app t (s +:+ w).
Proof.
  revert t. induction s as [|c s IH]; intros t; [done|].
  cbn [String.rev_app]. by rewrite IH.
Qed.

Lemma rev_rev_app s : String.rev (String.rev_app s "") = s.
Proof. unfold String.rev. rewrite rev_app_rev_app. cbn. apply append_nil_r. Qed.

Lemma no_linebreak_rev_app s t :
  no_linebreak (String.rev_app s t) = no_linebreak s && no_linebreak t.
Proof.
  revert t. induction s as [|c s IH]; intros t; [done|].
  cbn [String.rev_app no_linebreak]. rewrite IH. cbn [no_linebreak].
  by destruct (Str.is_linebreak c), (no_linebreak s), (no_linebreak t).
Qed.

Lemma no_linebreak_rev s : no_linebreak s = true → no_linebreak (String.rev s) = true.
Proof.
  intros Hs. unfold String.rev. by rewrite no_linebreak_rev_app, Hs.
Qed.

Lemma lstrip_length s : String.length (Str.lstrip s) ≤ String.length s.
Proof.
  induction s as [|c s IH]; [done|]. cbn [Str.lstrip].
  destruct (Str.isspace c); cbn [String.length]; lia.
Qed.

(** What [lstrip] leaves starts with no white space. *)
Lemma lstrip_head s c t : Str.lstrip s = String c t → Str.isspace c = false.
Proof.
  induction s as [|d s IH]; [done|]. cbn [Str.lstrip].
  destruct (Str.isspace d) eqn:Hd; [done|]. by intros [= <- _].
Qed.

Lemma lstrip_fixed_head c t :
  Str.lstrip (String c t) = String c t → Str.isspace c = false.
Proof. apply lstrip_head. Qed.

Lemma lstrip_nonspace c t : Str.isspace c = false → Str.lstrip (String c t) = String c t.
Proof. intros Hc. cbn [Str.lstrip]. by rewrite Hc. Qed.

Lemma rstrip_nonspace c t :
  Str.isspace c = false → Str.rstrip (String c t) = String c (Str.rstrip t).
Proof. intros Hc. cbn [Str.rstrip]. destruct (Str.rstrip t); by rewrite ?Hc. Qed.

Lemma rstrip_cons_nonempty c t :
  Str.rstrip t ≠ "" → Str.rstrip (String c t) = String c (Str.rstrip t).
Proof. intros Ht. cbn [Str.rstrip]. by destruct (Str.rstrip t). Qed.

Lemma rstrip_idem s : Str.rstrip (Str.rstrip s) = Str.rstrip s.
Proof.
  induction s as [|c s IH]; [done|]. cbn [Str.rstrip].
  destruct (Str.rstrip s) as [|d r] eqn:Hr.
  - destruct (Str.isspace c) eqn:Hc; [done|]. cbn. by rewrite Hc.
  - by rewrite rstrip_cons_nonempty; rewrite IH.
Qed.

Lemma lstrip_strip s : Str.lstrip (Str.strip s) = Str.strip s.
Proof.
  unfold Str.strip. destruct (Str.lstrip s) as [|c t] eqn:Hl; [done|].
  pose proof (lstrip_head _ _ _ Hl) as Hc.
  rewrite (rstrip_nonspace _ _ Hc). by apply lstrip_nonspace.
Qed.

Lemma strip_idem s : Str.strip (Str.strip s) = Str.strip s.
Proof.
  unfold Str.strip at 1. rewrite lstrip_strip. unfold Str.strip. apply rstrip_idem.
Qed.

Lemma strip_fixed_lstrip s : Str.strip s = s → Str.lstrip s = s.
Proof. intros Hs. rewrite <-Hs at 1. rewrite lstrip_strip. done. Qed.

Lemma strip_fixed_rstrip s : Str.strip s = s → Str.rstrip s = s.
Proof.
  intros Hs. rewrite <-Hs at 1. unfold Str.strip. rewrite rstrip_idem. done.
Qed.

Lemma no_linebreak_lstrip s : no_linebreak s = true → no_linebreak (Str.lstrip s) = true.
Proof.
  induction s as [|c s IH]; [done|]. cbn [Str.lstrip no_linebreak].
  intros [Hc Hs]%andb_true_iff. destruct (Str.isspace c); [by apply IH|].
  cbn [no_linebreak]. by rewrite Hc, Hs.
Qed.

Lemma no_linebreak_rstrip s : no_linebreak s = true → no_linebreak (Str.rstrip s) = true.
Proof.
  induction s as [|c s IH]; [done|]. cbn [Str.rstrip no_linebreak].
  intros [Hc Hs]%andb_true_iff. specialize (IH Hs).
  destruct (Str.rstrip s) as [|d r].
  - destruct (Str.isspace c); [done|]. cbn. by rewrite Hc.
  - cbn [no_linebreak] in *. by rewrite Hc, IH.
Qed.

Lemma no_linebreak_strip s : no_linebreak s = true → no_linebreak (Str.strip s) = true.
Proof. intros Hs. by apply no_linebreak_rstrip, no_linebreak_lstrip. Qed.

(** No line of [splitlines] holds a line boundary. *)
Lemma splitlines_go_no_linebreak n :
  ∀ s cur, String.length s < n → no_linebreak cur = true →
    Forall (λ line, no_linebreak line = true) (Str.splitlines_go cur s).
Proof.
  induction n as [|n IH]; intros s cur Hlen Hcur; [lia|].
  destruct s as [|c s]; cbn [Str.splitlines_go].
  - destruct cur; [constructor|].
    repeat constructor. by apply no_linebreak_rev.
  - cbn [String.length] in Hlen. destruct (Str.is_linebreak c) eqn:Hc.
    + destruct s as [|c' s'].
      * repeat constructor. by apply no_linebreak_rev.
      * cbn [String.length] in Hlen.
        destruct ((Str.code c =? 13)%N && (Str.code c' =? 10)%N);
          (constructor; [by apply no_linebreak_rev|]); apply IH; (done || (cbn; lia)).
    + apply IH; [lia|]. cbn [no_linebreak]. by rewrite Hc, Hcur.
Qed.

Lemma splitlines_no_linebreak s :
  Forall (λ line, no_linebreak line = true) (Str.splitlines s).
Proof.
  unfold Str.splitlines.
  apply (splitlines_go_no_linebreak (S (String.length s))); [lia|done].
Qed.

(** X6. Every site read from the text widget is a line of it without the
    white space around: it is not empty, it neither starts nor ends with
    white space, and it holds no line boundary.  Blank lines give no
    site. *)
Theorem sites_are_stripped_lines sites_text site :
  site ∈ sites_of sites_text →
  site ≠ "" ∧ Str.strip site = site ∧ no_linebreak site = true ∧
  (∀ c rest, site = String c rest → Str.isspace c = false) ∧
  (∀ pre c, site = pre +:+ String c "" → Str.isspace c = false) ∧
  ∃ line, line ∈ Str.splitlines (Str.strip sites_text) ∧ site = Str.strip line.
Proof.
  unfold sites_of. cbn zeta.
  intros (line & -> & [Htruthy Hline]%list_elem_of_filter)%list_elem_of_fmap.
  apply truthy_iff in Htruthy.
  assert (no_linebreak line = true) as Hnb.
  { pose proof (splitlines_no_linebreak (Str.strip sites_text)) as Hall.
    rewrite Forall_forall in Hall. by apply Hall. }
  split_and!; try done.
  - apply strip_idem.
  - by apply no_linebreak_strip.
  - intros c rest Hs. eapply lstrip_head. rewrite lstrip_strip. exact Hs.
  - intros pre c Hs.
    destruct (Str.isspace c) eqn:Hc; [|done]. exfalso.
    pose proof (rstrip_idem (Str.lstrip line)) as Hidem.
    fold (Str.strip line) in Hidem. rewrite Hs in Hidem.
    assert (∀ p, Str.rstrip (p +:+ String c "") = Str.rstrip p) as Hdrop.
    { intros p. induction p as [|d p IHp].
      - rewrite append_nil_l. cbn [Str.rstrip]. by rewrite Hc.
      - rewrite append_cons. cbn [Str.rstrip]. by rewrite IHp. }
    rewrite Hdrop in Hidem.
    assert (∀ p, String.length (Str.rstrip p) ≤ String.length p) as Hlen.
    { intros p. induction p as [|d p IHp]; [done|]. cbn [Str.rstrip].
      destruct (Str.rstrip p); [destruct (Str.isspace d)|]; cbn in *; lia. }
    specialize (Hlen pre). rewrite Hidem in Hlen.
    assert (∀ p q, String.length (p +:+ q) = String.length p + String.length q)
      as Happ.
    { intros p q. induction p as [|d p IHp]; [done|].
      rewrite append_cons. cbn. by rewrite IHp. }
    rewrite Happ in Hlen. cbn in Hlen. lia.
  - by exists line.
Qed.

Lemma lstrip_all_space w s : all_space w = true → Str.lstrip (w +:+ s) = Str.lstrip s.
Proof.
  induction w as [|c w IH]; [done|]. cbn [all_space].
  intros [Hc Hw]%andb_true_iff. rewrite append_cons. cbn [Str.lstrip].
  rewrite Hc. by apply IH.
Qed.

Lemma rstrip_all_space w : all_space w = true → Str.rstrip w = "".
Proof.
  induction w as [|c w IH]; [done|]. cbn [all_space].
  intros [Hc Hw]%andb_true_iff. cbn [Str.rstrip]. by rewrite (IH Hw), Hc.
Qed.

Lemma rstrip_app_all_space s w :
  all_space w = true → Str.rstrip (s +:+ w) = Str.rstrip s.
Proof.
  intros Hw. induction s as [|c s IH].
  - rewrite append_nil_l. by apply rstrip_all_space.
  - rewrite append_cons. cbn [Str.rstrip]. by rewrite IH.
Qed.

Lemma rstrip_app_fixed s t :
  t ≠ "" → Str.rstrip t = t → Str.rstrip (s +:+ t) = s +:+ t.
Proof.
  intros Hne Ht. induction s as [|c s IH]; [done|].
  rewrite append_cons, rstrip_cons_nonempty; rewrite IH; [done|].
  destruct s; [done|by rewrite append_cons].
Qed.

Lemma site_line_head s : site_line s → ∃ c t, s = String c t ∧ Str.isspace c = false.
Proof.
  intros (Hne & Hs & _). destruct s as [|c t]; [done|].
  exists c, t. split; [done|]. eapply lstrip_fixed_head. by apply strip_fixed_lstrip.
Qed.

Lemma line_feed_append t : line_feed +:+ t = String (ascii_of_N 10) t.
Proof. reflexivity. Qed.

Lemma join_cons_cons s s2 l :
  Str.join line_feed (s :: s2 :: l) = s +:+ line_feed +:+ Str.join line_feed (s2 :: l).
Proof. reflexivity. Qed.

(** The lines joined by line feeds start like the first of them. *)
Lemma join_head s l :
  site_line s →
  ∃ c t, Str.join line_feed (s :: l) = String c t ∧ Str.isspace c = false.
Proof.
  intros (c & t & -> & Hc)%site_line_head. destruct l as [|s2 l].
  - by exists c, t.
  - rewrite join_cons_cons, append_cons. by eexists _, _.
Qed.

Lemma join_rstrip l :
  Forall site_line l → l ≠ [] →
  Str.rstrip (Str.join line_feed l) = Str.join line_feed l.
Proof.
  induction 1 as [|s l Hs Hl IH]; [done|]. intros _.
  destruct l as [|s2 l].
  - cbn [Str.join]. apply strip_fixed_rstrip, Hs.
  - rewrite join_cons_cons. apply Forall_cons in Hl as Hl'. destruct Hl' as [Hs2 _].
    destruct (join_head s2 l Hs2) as (c & t & Hj & Hc).
    rewrite line_feed_append. apply rstrip_app_fixed; [done|].
    rewrite rstrip_cons_nonempty; rewrite IH; try done.
    by rewrite Hj.
Qed.

(** A string of white space only around the joined lines is stripped. *)
Lemma strip_padded_join w1 w2 l :
  Forall site_line l → all_space w1 = true → all_space w2 = true →
  Str.strip (w1 +:+ Str.join line_feed l +:+ w2) = Str.join line_feed l.
Proof.
  intros Hl Hw1 Hw2. unfold Str.strip. rewrite (lstrip_all_space _ _ Hw1).
  destruct l as [|s l].
  - cbn [Str.join]. rewrite append_nil_l.
    assert (Str.lstrip w2 = "") as ->; [|done].
    clear -Hw2. induction w2 as [|c w IH]; [done|].
    cbn [all_space] in Hw2. apply andb_true_iff in Hw2 as [Hc Hw].
    cbn [Str.lstrip]. rewrite Hc. by apply IH.
  - apply Forall_cons in Hl as Hl'. destruct Hl' as [Hs _].
    destruct (join_head s l Hs) as (c & t & Hj & Hc).
    rewrite Hj at 1. rewrite append_cons, (lstrip_nonspace _ _ Hc).
    rewrite <-append_cons, <-Hj, (rstrip_app_all_space _ _ Hw2).
    by apply join_rstrip.
Qed.

Lemma splitlines_go_app cur s rest :
  no_linebreak s = true →
  Str.splitlines_go cur (s +:+ rest) = Str.splitlines_go (String.rev_app s cur) rest.
Proof.
  revert cur. induction s as [|c s IH]; intros cur Hs; [done|].
  cbn [no_linebreak] in Hs. apply andb_true_iff in Hs as [Hc%negb_true_iff Hs].
  rewrite append_cons. cbn [Str.splitlines_go String.rev_app]. rewrite Hc.
  by apply IH.
Qed.

(** A line feed before more text closes the line being read. *)
Lemma splitlines_go_line_feed cur c t :
  Str.splitlines_go cur (String (ascii_of_N 10) (String c t)) =
    String.rev cur :: Str.splitlines_go "" (String c t).
Proof. reflexivity. Qed.

Lemma splitlines_join l :
  Forall site_line l → Str.splitlines (Str.join line_feed l) = l.
Proof.
  unfold Str.splitlines. induction 1 as [|s l Hs Hl IH]; [done|].
  pose proof Hs as (Hne & _ & Hnb).
  destruct l as [|s2 l].
  - cbn [Str.join]. rewrite <-(append_nil_r s) at 1.
    rewrite (splitlines_go_app _ _ _ Hnb). cbn [Str.splitlines_go].
    destruct (String.rev_app s "") as [|c t] eqn:Hrev.
    + pose proof (rev_rev_app s) as Hs'. rewrite Hrev in Hs'. by destruct Hne.
    + by rewrite <-Hrev, rev_rev_app.
  - rewrite join_cons_cons, (splitlines_go_app _ _ _ Hnb).
    apply Forall_cons in Hl as Hl'. destruct Hl' as [Hs2 _].
    destruct (join_head s2 l Hs2) as (c & t & Hj & Hc).
    rewrite line_feed_append, Hj, splitlines_go_line_feed.
    by rewrite rev_rev_app, <-Hj, IH.
Qed.

(** X7. Lines that are not empty and carry no white space around and no
    line boundary inside, joined by line feeds as the window does with its
    seed list, are read back as the same list of sites, in order; white
    space before the first or after the last line, such as the line feed a
    text widget ends with, changes nothing. *)
Theorem sites_of_joined_lines l w1 w2 :
  Forall site_line l → all_space w1 = true → all_space w2 = true →
  sites_of (w1 +:+ Str.join line_feed l +:+ w2) = l.
Proof.
  intros Hl Hw1 Hw2. unfold sites_of. cbn zeta.
  rewrite (strip_padded_join _ _ _ Hl Hw1 Hw2), (splitlines_join _ Hl).
  induction Hl as [|s l Hs Hl IH]; [done|].
  pose proof Hs as (Hne & Hstrip & _).
  rewrite filter_cons_True by (rewrite Hstrip; by apply truthy_iff).
  cbn [fmap list_fmap]. rewrite Hstrip. f_equal. apply IH.
Qed.

End Lines.

(** ** The double click *)

(** X14. A double click with nothing selected does nothing.  With a row
    selected it does one thing: it opens the third value of the row when
    there is one and it is not empty, else the first value when that is not
    empty, else it shows the dialog that no URL was found; it never opens
    an empty URL, and on a row without values it raises IndexError. *)
Theorem double_click_opens_one_url selection item_values :
  let r := on_item_double_click selection item_values in
  (selection = [] → r = ([], Ok tt)) ∧
  (∀ u, OpenBrowser u ∈ r.1 → u ≠ "") ∧
  length r.1 ≤ 1 ∧
  (∀ shown site url more,
     selection ≠ [] →
     item_values selection = Ok (shown :: site :: url :: more) →
     r = if Str.truthy url then ([OpenBrowser url], Ok tt)
         else if Str.truthy shown then ([OpenBrowser shown], Ok tt)
         else ([ShowInfo "No URL" "Can't find URL to open for this item."], Ok tt)) ∧
  (∀ values,
     selection ≠ [] → item_values selection = Ok values → length values < 3 →
     r = match values with
         | [] => ([], Raise (OtherException "IndexError"))
         | first :: _ =>
             if Str.truthy first then ([OpenBrowser first], Ok tt)
             else ([ShowInfo "No URL" "Can't find URL to open for this item."], Ok tt)
         end).
Proof.
  cbn zeta. split_and!.
  - by intros ->.
  - intros u. unfold on_item_double_click.
    destruct selection as [|item selection]; [by intros ?%elem_of_nil|].
    destruct (item_values _) as [values|e]; [|by intros ?%elem_of_nil].
    cbn zeta.
    destruct (match (if decide (3 ≤ length values) then values !! 2 else None) with
              | Some u0 => if Str.truthy u0 then Ok u0 else index values 0
              | None => index values 0
              end) as [v|e]; [|by intros ?%elem_of_nil].
    destruct (Str.truthy v) eqn:Hv.
    + intros [= ->]%list_elem_of_singleton. by apply truthy_iff.
    + intros Hin. apply list_elem_of_singleton in Hin. discriminate.
  - unfold on_item_double_click.
    destruct selection as [|item selection]; [cbn; lia|].
    destruct (item_values _) as [values|e]; [|cbn; lia]. cbn zeta.
    destruct (match (if decide (3 ≤ length values) then values !! 2 else None) with
              | Some u0 => if Str.truthy u0 then Ok u0 else index values 0
              | None => index values 0
              end) as [v|e]; [|cbn; lia].
    destruct (Str.truthy v); cbn; lia.
  - intros shown site url more Hsel Hvalues. unfold on_item_double_click.
    destruct selection as [|item selection]; [done|]. rewrite Hvalues. cbn zeta.
    rewrite decide_True by (cbn; lia). cbn [lookup list_lookup].
    destruct (Str.truthy url) eqn:Hurl; [by rewrite Hurl|].
    unfold index. cbn [lookup list_lookup]. by destruct (Str.truthy shown).
  - intros values Hsel Hvalues Hlen. unfold on_item_double_click.
    destruct selection as [|item selection]; [done|]. rewrite Hvalues. cbn zeta.
    rewrite decide_False by lia. unfold index.
    destruct values as [|first values]; [done|]. cbn [lookup list_lookup].
    by destruct (Str.truthy first).
Qed.

(** ** The further properties on the examples *)

Lemma two_jobs_links :
  py_find_php_links_on_html two_jobs_html jobs_test = Ok [senior_php; designer].
Proof. vm_compute. reflexivity. Qed.

Lemma two_jobs_matches :
  raw_matches Bs4.BeautifulSoup Urllib.urljoin Html.unescape two_jobs_html jobs_test
    = Ok [senior_php; designer].
Proof. vm_compute. reflexivity. Qed.

Lemma designer_anchor_found :
  ((last_anchor two_jobs_html).1, (last_anchor two_jobs_html).2)
    ∈ find_all_a (soup_of two_jobs_html).
Proof. apply list_elem_of_lookup. exists 1. vm_compute. reflexivity. Qed.

Lemma designer_parent_holds_keyword :
  occurs_ignoring_case "php" (get_text (last_anchor two_jobs_html).2).
Proof. apply (contains_lower_iff "php"). vm_compute. reflexivity. Qed.

Lemma bad_neighbour_raises :
  py_find_php_links_on_html bad_neighbour_html jobs_test
    = Raise (ValueError "Invalid IPv6 URL").
Proof. vm_compute. reflexivity. Qed.

Lemma down_is_a_site : "down.test" ∈ sites_of three_sites.
Proof. rewrite three_sites_list. by left. Qed.

Lemma SITES_are_site_lines : Forall site_line SITES.
Proof.
  repeat apply Forall_cons_2; [..|apply Forall_nil_2];
    (split_and!; [discriminate|vm_compute; reflexivity..]).
Qed.

Lemma line_feed_is_space : all_space line_feed = true.
Proof. reflexivity. Qed.

Lemma one_row_selected :
  (λ _ : list string, Ok ["Designer"; "https://jobs.test"; "https://jobs.test/job/2"])
    ["I002"] = Ok ("Designer" :: "https://jobs.test" :: "https://jobs.test/job/2" :: []).
Proof. reflexivity. Qed.

Lemma row_is_selected : ["I002"] ≠ [].
Proof. discriminate. Qed.

(** Both links of the page of two jobs come from its anchors. *)
Lemma links_come_from_matched_anchors_witness :
  ∃ soup,
    Bs4.BeautifulSoup two_jobs_html = Ok soup ∧
    ∀ c, c ∈ [senior_php; designer] →
      ∃ a p full,
        (a, p) ∈ find_all_a soup ∧
        is_a_with_href a = true ∧
        (occurs_ignoring_case "php" (get_text a)
         ∨ occurs_ignoring_case "php" (href_of a)
         ∨ occurs_ignoring_case "php" (get_text p)) ∧
        Urllib.urljoin jobs_test (href_of a) = Ok full ∧
        url c = full ∧
        title c = Html.unescape (Str.or_else (get_text a) (href_of a)).
Proof.
  exact (links_come_from_matched_anchors Bs4.BeautifulSoup Urllib.urljoin
           Html.unescape two_jobs_html jobs_test [senior_php; designer]
           two_jobs_links).
Defined.

(** The Designer anchor is listed for the text of its parent, the root. *)
Lemma parent_keyword_anchor_listed_witness :
  ∃ c ms,
    candidate Urllib.urljoin Html.unescape jobs_test
      ((last_anchor two_jobs_html).1, (last_anchor two_jobs_html).2) = Ok c ∧
    raw_matches Bs4.BeautifulSoup Urllib.urljoin Html.unescape
      two_jobs_html jobs_test = Ok ms ∧
    c ∈ dedup_first ms ∧
    (length (dedup_first ms) ≤ MAX_LINKS_PER_SITE → c ∈ [senior_php; designer]).
Proof.
  exact (parent_keyword_anchor_listed Bs4.BeautifulSoup Urllib.urljoin
           Html.unescape two_jobs_html jobs_test (soup_of two_jobs_html)
           _ _ [senior_php; designer] (soup_of_Ok two_jobs_html)
           designer_anchor_found designer_parent_holds_keyword two_jobs_links).
Defined.

(** The page with the rejected href: the exception is that of [urljoin] on
    a matched anchor. *)
Lemma extractor_raises_only_on_matched_href_witness :
  Bs4.BeautifulSoup bad_neighbour_html = Raise (ValueError "Invalid IPv6 URL") ∨
  ∃ soup a p,
    Bs4.BeautifulSoup bad_neighbour_html = Ok soup ∧
    (a, p) ∈ find_all_a soup ∧ matched (a, p) = true ∧
    Urllib.urljoin jobs_test (href_of a) = Raise (ValueError "Invalid IPv6 URL").
Proof.
  exact (proj1 (extractor_raises_only_on_matched_href Bs4.BeautifulSoup
                  Urllib.urljoin Html.unescape bad_neighbour_html jobs_test)
               (ValueError "Invalid IPv6 URL") bad_neighbour_raises).
Defined.

(** The two matches of the page of two jobs are returned as they are. *)
Lemma output_keeps_order_of_matches_witness :
  [senior_php; designer] `sublist_of` [senior_php; designer] ∧
  (NoDup (key <$> [senior_php; designer]) →
   length [senior_php; designer] ≤ MAX_LINKS_PER_SITE →
   [senior_php; designer] = [senior_php; designer]).
Proof.
  exact (output_keeps_order_of_matches Bs4.BeautifulSoup Urllib.urljoin
           Html.unescape two_jobs_html jobs_test _ _
           two_jobs_matches two_jobs_links).
Defined.

(** The first of the three sites is a stripped line. *)
Lemma sites_are_stripped_lines_witness :
  "down.test" ≠ "" ∧ Str.strip "down.test" = "down.test".
Proof.
  destruct (sites_are_stripped_lines three_sites "down.test" down_is_a_site)
    as (Hne & Hstrip & _).
  by split.
Defined.

(** The window reads its seed list back: the text it is seeded with, and
    the line feed the widget ends with. *)
Lemma sites_of_joined_lines_witness :
  sites_of ("" +:+ Str.join line_feed SITES +:+ line_feed) = SITES.
Proof.
  exact (sites_of_joined_lines SITES "" line_feed SITES_are_site_lines
           eq_refl line_feed_is_space).
Defined.

(** The run over the three sites: requests and sleeps alternate. *)
Lemma requests_are_paced_witness :
  pace (trace (py_scrape_and_display flaky_web three_sites))
    = paced_requests Urllib.urlparse_scheme (sites_of three_sites).
Proof.
  exact (proj1 (proj2 (requests_are_paced Bs4.BeautifulSoup Urllib.urljoin
                         Html.unescape Urllib.urlparse_scheme flaky_web three_sites))
               flaky_run_completes).
Defined.

(** The run over the three sites shows progress 1/3, 2/3, 3/3. *)
Lemma progress_counts_sites_witness :
  progress (trace (py_scrape_and_display flaky_web three_sites))
    = numbered Urllib.urlparse_scheme (length (sites_of three_sites)) 1
        (sites_of three_sites).
Proof.
  exact (proj2 (progress_counts_sites Bs4.BeautifulSoup Urllib.urljoin
                  Html.unescape Urllib.urlparse_scheme flaky_web three_sites)
               flaky_run_completes).
Defined.

(** The run over the three sites ends by enabling the button. *)
Lemma button_enabled_only_on_completion_witness :
  last (trace (py_scrape_and_display flaky_web three_sites))
    = Some (RefreshButton "normal").
Proof.
  exact (proj2 (proj2 (button_enabled_only_on_completion Bs4.BeautifulSoup
                         Urllib.urljoin Html.unescape Urllib.urlparse_scheme
                         flaky_web three_sites))
               three_sites_not_empty flaky_run_completes).
Defined.

(** After the run over the three sites a table that held a row holds the
    rows of the run. *)
Lemma table_holds_rows_of_last_run_witness :
  table_after [("old", "old.test", "https://old.test/1")]
              (trace (py_scrape_and_display flaky_web three_sites))
    = rows (trace (py_scrape_and_display flaky_web three_sites)).
Proof.
  exact (proj2 (table_holds_rows_of_last_run Bs4.BeautifulSoup Urllib.urljoin
                  Html.unescape Urllib.urlparse_scheme flaky_web three_sites
                  [("old", "old.test", "https://old.test/1")])
               three_sites_not_empty).
Defined.

Lemma designer_row_added :
  ("Designer", "https://jobs.test", "https://jobs.test/job/2")
    ∈ rows (trace (py_scrape_and_display flaky_web three_sites)).
Proof. apply (bool_decide_unpack _). vm_compute. exact I. Qed.

(** The Designer row of the run over the three sites. *)
Lemma rows_come_from_fetched_pages_witness :
  ∃ site status_code text links l,
    site ∈ sites_of three_sites ∧
    "https://jobs.test" = site_url Urllib.urlparse_scheme site ∧
    flaky_web "https://jobs.test" = Response status_code text ∧
    ¬ (400 ≤ status_code < 600) ∧ text ≠ "" ∧
    find_php_links_on_html Bs4.BeautifulSoup Urllib.urljoin Html.unescape
      text "https://jobs.test" = Ok links ∧
    l ∈ links ∧ "https://jobs.test/job/2" = url l ∧
    "Designer" = Str.or_else (title l) (url l).
Proof.
  exact (proj1 (proj2 (rows_come_from_fetched_pages Bs4.BeautifulSoup
                         Urllib.urljoin Html.unescape Urllib.urlparse_scheme
                         flaky_web three_sites))
               "Designer" "https://jobs.test" "https://jobs.test/job/2"
               designer_row_added).
Defined.

(** The run over the three sites reports the number of its rows. *)
Lemma count_is_rows_within_bound_witness :
  final_counts (trace (py_scrape_and_display flaky_web three_sites))
    = [length (rows (trace (py_scrape_and_display flaky_web three_sites)))].
Proof.
  exact (proj2 (count_is_rows_within_bound Bs4.BeautifulSoup Urllib.urljoin
                  Html.unescape Urllib.urlparse_scheme flaky_web three_sites)
               three_sites_not_empty flaky_run_completes).
Defined.

(** A double click on the Designer row opens its url. *)
Lemma double_click_opens_one_url_witness :
  on_item_double_click ["I002"]
    (λ _, Ok ["Designer"; "https://jobs.test"; "https://jobs.test/job/2"])
    = ([OpenBrowser "https://jobs.test/job/2"], Ok tt).
Proof.
  exact (proj1 (proj2 (proj2 (proj2
           (double_click_opens_one_url ["I002"]
              (λ _, Ok ["Designer"; "https://jobs.test"; "https://jobs.test/job/2"])))))
           "Designer" "https://jobs.test" "https://jobs.test/job/2" []
           row_is_selected one_row_selected).
Defined.
